(** * Period tracker: prediction service and prediction cache

    A shallow embedding of [backend/src/services/predictionService.ts],
    [backend/src/config/redis.ts] and of the two routes that use the cache
    ([routes/predictions.ts], [routes/periods.ts]).

    Conventions of the embedding:
    - a JavaScript [number] that the code computes with is an exact rational
      ([Q], compared with [==]); IEEE rounding is not modelled, except in
      [Binary64], which recomputes the standard deviation in doubles to show
      where the regularity tier depends on it;
    - [Math.sqrt] of a rational is kept as a surd ([Surd]), compared through
      its square, with its meaning as a real number given by [Surd_to_R];
    - a [Date] is its time value in milliseconds ([Z]); the local calendar of
      the server is taken to be UTC, so one calendar day is [oneDay] ms;
    - [async] functions are state-passing functions over the database and
      the Redis connection; a thrown exception is the [Throw] case of
      [Except]. *)

From Stdlib Require Import ZArith QArith Qround Qabs Qminmax Qpower Lia Lqa.
From Stdlib Require Import Reals Qreals Lra Ascii String.
From Stdlib Require PrimFloat Uint63.
From stdpp Require Import gmap strings list sorting.

Set Default Proof Using "Type".

(** Comparisons of rationals are decidable, by cross-multiplication. *)
#[global] Instance Qlt_decision (x y : Q) : Decision (x < y)%Q :=
  decide (Qnum x * QDen y < Qnum y * QDen x)%Z.
#[global] Instance Qle_decision (x y : Q) : Decision (x <= y)%Q :=
  decide (Qnum x * QDen y ≤ Qnum y * QDen x)%Z.

(** ** JavaScript primitives used by the service *)

Module JS.

(** [Math.round]: the nearest integer, halves going up. *)
Definition Math_round (x : Q) : Z := Qfloor (x + (1 # 2)).

Definition Math_min (a b : Q) : Q := Qmin a b.
Definition Math_max (a b : Q) : Q := Qmax a b.
Definition Math_abs (x : Q) : Q := Qabs x.

(** [Math.pow] with a whole exponent. *)
Definition Math_pow (b : Q) (e : nat) : Q := Qpower b (Z.of_nat e).

(** The value of [Math.sqrt x] for a rational [x]: the non-negative real
    whose square is [radicand]. *)
Record Surd : Type := Math_sqrt { radicand : Q }.

(** [s < c] for a non-negative constant [c], decided on the exact values.
    The code compares the double that [Math.sqrt] returns; for the whole
    samples of the service (at most eleven, each in [21, 45]) the variance is
    a multiple of [1 / n^3], so when it is not [c * c] it is at least
    [1 / 1331] away from it ([PredictionFacts.variance_margin]) and the
    double is on the same side of [c] as the exact value.  At
    [radicand s == c * c] the rounding of the double decides and this
    comparison does not stand for the code: a statement that depends on the
    outcome there excludes that case. *)
Definition Surd_ltb (s : Surd) (c : Q) : bool :=
  bool_decide (radicand s < c * c)%Q.

Definition Surd_to_R (s : Surd) : R := sqrt (Q2R (radicand s)).

(** [arr.slice(start, end)] and [arr.slice(start)] for indices within
    [0 .. length]. *)
Definition slice {A} (start end_ : nat) (arr : list A) : list A :=
  take (end_ - start) (drop start arr).
Definition slice_from {A} (start : nat) (arr : list A) : list A :=
  drop start arr.

(** [x || d] on an optional integer: [undefined], [null] and [0] are falsy. *)
Definition or_default (x : option Z) (d : Z) : Z :=
  match x with
  | Some v => if (v =? 0)%Z then d else v
  | None => d
  end.

(** Exceptions. *)
Inductive Error : Type :=
| TypeError (msg : string)
| SyntaxError (msg : string)
| RedisError (msg : string).

Inductive Except (A : Type) : Type :=
| Ok (a : A)
| Throw (e : Error).
Arguments Ok {A} a.
Arguments Throw {A} e.

Definition bind {A B} (m : Except A) (k : A → Except B) : Except B :=
  match m with
  | Ok a => k a
  | Throw e => Throw e
  end.

Definition succeeds {A} (m : Except A) : Prop :=
  match m with Ok _ => True | Throw _ => False end.

End JS.
Export JS.

#[global] Instance Except_ret : MRet Except := @Ok.
#[global] Instance Except_bind : MBind Except := fun A B k m => JS.bind m k.
#[global] Instance Except_fmap : FMap Except :=
  fun A B f m => JS.bind m (fun a => Ok (f a)).

(** ** Data model *)

(** A [Date] as its time value, milliseconds since the epoch. *)
Definition Date : Type := Z.

Inductive FlowIntensity : Type := light | moderate | heavy.

Inductive Regularity : Type :=
| very_regular | regular | somewhat_irregular | irregular.

#[global] Instance FlowIntensity_eq_dec : EqDecision FlowIntensity.
Proof. solve_decision. Defined.
#[global] Instance Regularity_eq_dec : EqDecision Regularity.
Proof. solve_decision. Defined.

(** A row of the [periods] table as [findAll {raw: true}] returns it.
    [DATEONLY] columns are day numbers (days since the epoch). *)
Record Period : Type := {
  user_id : string;
  start_date : Z;
  end_date : option Z;
  flow_intensity : option FlowIntensity;
}.

Record UserSettings : Type := {
  avg_cycle_length : Z;
  avg_period_length : Z;
  last_calculated_at : option Date;
}.

Record CycleStats : Type := {
  avgCycleLength : Q;
  avgPeriodLength : Q;
  standardDeviation : Surd;
  regularity : Regularity;
  cyclesTracked : nat;
}.

Record PredictionResult : Type := {
  predictedStartDate : Date;
  predictedEndDate : Date;
  ovulationStart : Date;
  ovulationEnd : Date;
  confidenceScore : Q;
  predictedFlowIntensity : option FlowIntensity;
}.

(** [PredictionResult & { cycleStats: CycleStats }] *)
Record PredictionWithStats : Type := {
  prediction : PredictionResult;
  cycleStats : CycleStats;
}.

(** [PredictionResult & { cycleNumber: number }] *)
Record CyclePrediction : Type := {
  cycle : PredictionResult;
  cycleNumber : nat;
}.

Record MultiplePredictions : Type := {
  predictions : list CyclePrediction;
  multiCycleStats : CycleStats;
}.

(** The relational store: the [periods], [user_settings] and [predictions]
    tables. *)
Record Database : Type := {
  periods_table : list Period;
  user_settings_table : gmap string UserSettings;
  predictions_table : list (string * PredictionResult);
}.

(** ** The prediction service *)

Module PredictionService.

Definition oneDay : Z := 24 * 60 * 60 * 1000.

(** [new Date(s)] for a [DATEONLY] string: midnight UTC of that day;
    [new Date(null)] is the epoch. *)
Definition new_Date (day : option Z) : Date :=
  match day with
  | Some d => (d * oneDay)%Z
  | None => 0%Z
  end.

Definition average (numbers : list Q) : Q :=
  if decide (length numbers = 0%nat) then 0%Q
  else (foldl Qplus 0 numbers / inject_Z (Z.of_nat (length numbers)))%Q.

Definition standardDeviation_of (numbers : list Q) : Surd :=
  if decide (length numbers = 0%nat) then Math_sqrt 0
  else
    let avg := average numbers in
    let squareDiffs := map (fun num => ((num - avg) ^ 2)%Q) numbers in
    Math_sqrt (average squareDiffs).

Definition daysBetween (date1 date2 : Date) : Z :=
  Math_round (Math_abs (inject_Z (date2 - date1) / inject_Z oneDay)).

(** [setDate(getDate() + days)]: the day of the month is moved by the
    integer part of its argument.  [getDate()] is at least 1 and every call
    passes a whole or a non-negative number of days, for which the integer
    part of [getDate() + days] is [getDate() + floor days]. *)
Definition addDays (date : Date) (days : Q) : Date :=
  (date + Qfloor days * oneDay)%Z.

Fixpoint calculateCycleLengths (periods : list Period) : list Z :=
  match periods with
  | current :: (previous :: _) as older =>
      let currentStart := new_Date (Some (start_date current)) in
      let previousStart := new_Date (Some (start_date previous)) in
      let cycleLength := daysBetween previousStart currentStart in
      if bool_decide (21 ≤ cycleLength)%Z && bool_decide (cycleLength ≤ 45)%Z
      then cycleLength :: calculateCycleLengths older
      else calculateCycleLengths older
  | _ => []
  end.

Definition numbers (l : list Z) : list Q := map inject_Z l.

Definition periodLength (p : Period) : Z :=
  (daysBetween (new_Date (Some (start_date p))) (new_Date (end_date p)) + 1)%Z.

Definition has_end_date (p : Period) : bool :=
  match end_date p with Some _ => true | None => false end.

Definition classify (sd : Surd) : Regularity :=
  if Surd_ltb sd 2 then very_regular
  else if Surd_ltb sd 4 then regular
  else if Surd_ltb sd 7 then somewhat_irregular
  else irregular.

Definition calculateCycleStats (periods : list Period) : CycleStats :=
  let cycleLengths := calculateCycleLengths periods in
  let periodLengths := map periodLength (List.filter has_end_date periods) in
  let avgCycleLength := average (numbers cycleLengths) in
  let avgPeriodLength := average (numbers periodLengths) in
  let standardDeviation := standardDeviation_of (numbers cycleLengths) in
  {| avgCycleLength := avgCycleLength;
     avgPeriodLength := avgPeriodLength;
     standardDeviation := standardDeviation;
     regularity := classify standardDeviation;
     cyclesTracked := length cycleLengths |}.

Definition calculateWeightedCycleLength (periods : list Period) : Q :=
  let cycleLengths := numbers (calculateCycleLengths periods) in
  let recent3 := slice 0 (Nat.min 3 (length cycleLengths)) cycleLengths in
  let middle3 := slice 3 (Nat.min 6 (length cycleLengths)) cycleLengths in
  let older := slice_from 6 cycleLengths in
  let recentAvg := if decide (0 < length recent3)%nat then average recent3 else 0%Q in
  let middleAvg := if decide (0 < length middle3)%nat then average middle3 else recentAvg in
  let olderAvg := if decide (0 < length older)%nat then average older else middleAvg in
  if decide (length cycleLengths ≤ 3)%nat then recentAvg
  else if decide (length cycleLengths ≤ 6)%nat
       then (recentAvg * (7 # 10) + middleAvg * (3 # 10))%Q
       else (recentAvg * (5 # 10) + middleAvg * (3 # 10) + olderAvg * (2 # 10))%Q.

Definition calculateAveragePeriodLength (periods : list Period) : Q :=
  let periodLengths :=
    List.filter (fun length => bool_decide (2 ≤ length)%Z && bool_decide (length ≤ 10)%Z)
      (map periodLength (List.filter has_end_date periods)) in
  if decide (0 < length periodLengths)%nat then average (numbers periodLengths) else 5%Q.

Definition baseConfidence (stdDev : Surd) : Q :=
  if Surd_ltb stdDev 2 then (92 # 100)%Q
  else if Surd_ltb stdDev 4 then (82 # 100)%Q
  else if Surd_ltb stdDev 7 then (67 # 100)%Q
  else (50 # 100)%Q.

(** The local [finalConfidence] of [calculateConfidence], before the clamp. *)
Definition finalConfidence (stdDev : Surd) (dataPoints : nat) (avgCycleLength : Q) : Q :=
  let dataBoost :=
    (Math_min (inject_Z (Z.of_nat dataPoints) / 12) 1 * (8 # 100))%Q in
  let cycleAdjustment :=
    if bool_decide (26 <= avgCycleLength)%Q && bool_decide (avgCycleLength <= 32)%Q
    then 0%Q else (- (5 # 100))%Q in
  (baseConfidence stdDev + dataBoost + cycleAdjustment)%Q.

Definition calculateConfidence (stdDev : Surd) (dataPoints : nat) (avgCycleLength : Q) : Q :=
  Math_max (40 # 100) (Math_min (95 # 100) (finalConfidence stdDev dataPoints avgCycleLength)).

Record IntensityCounts : Type := {
  count_light : Q;
  count_moderate : Q;
  count_heavy : Q;
}.

(** [intensityCounts[period.flow_intensity] += by] under [if (period.flow_intensity)]. *)
Definition bump (by_ : Q) (counts : IntensityCounts) (period : Period) : IntensityCounts :=
  match flow_intensity period with
  | Some light =>
      {| count_light := count_light counts + by_;
         count_moderate := count_moderate counts;
         count_heavy := count_heavy counts |}
  | Some moderate =>
      {| count_light := count_light counts;
         count_moderate := count_moderate counts + by_;
         count_heavy := count_heavy counts |}
  | Some heavy =>
      {| count_light := count_light counts;
         count_moderate := count_moderate counts;
         count_heavy := count_heavy counts + by_ |}
  | None => counts
  end.

(** [Object.entries(intensityCounts)], in insertion order. *)
Definition entries (counts : IntensityCounts) : list (FlowIntensity * Q) :=
  [(light, count_light counts); (moderate, count_moderate counts);
   (heavy, count_heavy counts)].

Definition has_flow (p : Period) : bool :=
  match flow_intensity p with Some _ => true | None => false end.

Definition predictFlowIntensity (periods : list Period) : option FlowIntensity :=
  let periodsWithFlow := slice 0 6 (List.filter has_flow periods) in
  if decide (length periodsWithFlow = 0%nat) then None
  else
    let intensityCounts :=
      {| count_light := 0; count_moderate := 0; count_heavy := 0 |} in
    let intensityCounts := foldl (bump 1) intensityCounts periodsWithFlow in
    let recentPeriods := slice 0 3 periodsWithFlow in
    let intensityCounts := foldl (bump (1 # 2)) intensityCounts recentPeriods in
    let maxCount :=
      Math_max (Math_max (count_light intensityCounts) (count_moderate intensityCounts))
        (count_heavy intensityCounts) in
    let mostCommon :=
      List.find (fun entry => Qeq_bool (snd entry) maxCount) (entries intensityCounts) in
    match mostCommon with
    | Some entry => Some (fst entry)
    | None => Some moderate
    end.

(** [order: [['start_date', 'DESC']]] *)
Definition start_date_desc (a b : Period) : Prop := (start_date b ≤ start_date a)%Z.
#[global] Instance start_date_desc_dec a b : Decision (start_date_desc a b) :=
  decide (start_date b ≤ start_date a)%Z.

(** [Period.findAll]: the user's rows that have an end date, newest start
    first, at most twelve of them. *)
Definition findCompletedPeriods (userId : string) (db : Database) : list Period :=
  take 12
    (merge_sort start_date_desc
       (List.filter (fun p => bool_decide (user_id p = userId) && has_end_date p)
          (periods_table db))).

Definition useDefaultPrediction (now : Date) (userId : string) (periods : list Period)
    (db : Database) : PredictionWithStats :=
  let settings := user_settings_table db !! userId in
  let avgCycleLength := or_default (avg_cycle_length <$> settings) 28 in
  let avgPeriodLength := or_default (avg_period_length <$> settings) 5 in
  let lastPeriodStart :=
    match periods with
    | p0 :: _ => new_Date (Some (start_date p0))
    | [] => now
    end in
  let predictedStartDate := addDays lastPeriodStart (inject_Z avgCycleLength) in
  let predictedEndDate := addDays predictedStartDate (inject_Z (avgPeriodLength - 1)) in
  let ovulationDay := addDays predictedStartDate (- 14) in
  let ovulationStart := addDays ovulationDay (- 5) in
  let ovulationEnd := addDays ovulationDay 1 in
  let confidenceScore :=
    ((40 # 100) + inject_Z (Z.of_nat (length periods)) * (1 # 10))%Q in
  {| prediction :=
       {| predictedStartDate := predictedStartDate;
          predictedEndDate := predictedEndDate;
          ovulationStart := ovulationStart;
          ovulationEnd := ovulationEnd;
          confidenceScore := confidenceScore;
          predictedFlowIntensity := None |};
     cycleStats :=
       {| avgCycleLength := inject_Z avgCycleLength;
          avgPeriodLength := inject_Z avgPeriodLength;
          standardDeviation := Math_sqrt 0;
          regularity := irregular;
          cyclesTracked := length periods |} |}.

Definition savePrediction (userId : string) (p : PredictionResult) (db : Database)
    : Database :=
  {| periods_table := periods_table db;
     user_settings_table := user_settings_table db;
     predictions_table := predictions_table db ++ [(userId, p)] |}.

(** [findOrCreate] followed by [update]: either way the row ends up with
    the rounded statistics. *)
Definition updateUserSettings (now : Date) (userId : string) (stats : CycleStats)
    (db : Database) : Database :=
  let row :=
    {| avg_cycle_length := Math_round (avgCycleLength stats);
       avg_period_length := Math_round (avgPeriodLength stats);
       last_calculated_at := Some now |} in
  {| periods_table := periods_table db;
     user_settings_table := <[userId := row]> (user_settings_table db);
     predictions_table := predictions_table db |}.

(** [arr[i].field]: reading a field of [undefined] throws. *)
Definition element {A} (arr : list A) (i : nat) : Except A :=
  match arr !! i with
  | Some a => Ok a
  | None => Throw (TypeError "Cannot read properties of undefined")
  end.

Definition predictNextPeriod (now : Date) (userId : string) (db : Database)
    : Except (PredictionWithStats * Database) :=
  let periods := findCompletedPeriods userId db in
  if decide (length periods < 3)%nat
  then Ok (useDefaultPrediction now userId periods db, db)
  else
    let cycleStats := calculateCycleStats periods in
    let predictedCycleLength := calculateWeightedCycleLength periods in
    p0 ← element periods 0;
    let lastPeriodStart := new_Date (Some (start_date p0)) in
    let predictedStartDate :=
      addDays lastPeriodStart (inject_Z (Math_round predictedCycleLength)) in
    let avgPeriodLength := calculateAveragePeriodLength periods in
    let predictedEndDate :=
      addDays predictedStartDate (inject_Z (Math_round avgPeriodLength - 1)) in
    let ovulationDay := addDays predictedStartDate (- 14) in
    let ovulationStart := addDays ovulationDay (- 5) in
    let ovulationEnd := addDays ovulationDay 1 in
    let confidenceScore :=
      calculateConfidence (standardDeviation cycleStats) (length periods)
        (avgCycleLength cycleStats) in
    let predictedFlowIntensity := predictFlowIntensity periods in
    let result :=
      {| predictedStartDate := predictedStartDate;
         predictedEndDate := predictedEndDate;
         ovulationStart := ovulationStart;
         ovulationEnd := ovulationEnd;
         confidenceScore := confidenceScore;
         predictedFlowIntensity := predictedFlowIntensity |} in
    let db := savePrediction userId result db in
    let db := updateUserSettings now userId cycleStats db in
    Ok ({| prediction := result; cycleStats := cycleStats |}, db).

(** One pass through the body of the [for] loop of [predictMultipleCycles]:
    the entry pushed at index [i], from [predictions[i - 1]]. *)
Definition cycleAfter (firstPrediction : PredictionWithStats) (avgCycleLength : Q)
    (i : nat) (previousPrediction : CyclePrediction) : CyclePrediction :=
  let predictedStartDate :=
    addDays (predictedStartDate (cycle previousPrediction)) avgCycleLength in
  let predictedEndDate :=
    addDays predictedStartDate
      (inject_Z (Math_round (avgPeriodLength (cycleStats firstPrediction)) - 1)) in
  let ovulationDay := addDays predictedStartDate (- 14) in
  let ovulationStart := addDays ovulationDay (- 5) in
  let ovulationEnd := addDays ovulationDay 1 in
  let confidenceScore :=
    (confidenceScore (prediction firstPrediction) * Math_pow (95 # 100) i)%Q in
  {| cycleNumber := i + 1;
     cycle :=
       {| predictedStartDate := predictedStartDate;
          predictedEndDate := predictedEndDate;
          ovulationStart := ovulationStart;
          ovulationEnd := ovulationEnd;
          confidenceScore := Math_max confidenceScore (40 # 100);
          predictedFlowIntensity :=
            predictedFlowIntensity (prediction firstPrediction) |} |}.

(** The loop itself, with [count] passes left from index [i]. *)
Fixpoint moreCycles (firstPrediction : PredictionWithStats) (avgCycleLength : Q)
    (i count : nat) (predictions : list CyclePrediction)
    : Except (list CyclePrediction) :=
  match count with
  | O => Ok predictions
  | S count' =>
      previousPrediction ← element predictions (i - 1);
      moreCycles firstPrediction avgCycleLength (S i) count'
        (predictions ++ [cycleAfter firstPrediction avgCycleLength i previousPrediction])
  end.

Definition predictMultipleCycles (now : Date) (userId : string) (numberOfCycles : Z)
    (db : Database) : Except (MultiplePredictions * Database) :=
  '(firstPrediction, db) ← predictNextPeriod now userId db;
  let predictions := [{| cycle := prediction firstPrediction; cycleNumber := 1 |}] in
  let avgCycleLength := avgCycleLength (cycleStats firstPrediction) in
  predictions ←
    moreCycles firstPrediction avgCycleLength 1 (Z.to_nat (numberOfCycles - 1)) predictions;
  Ok ({| predictions := predictions; multiCycleStats := cycleStats firstPrediction |}, db).

End PredictionService.

(** ** The standard deviation in double precision

    The numbers of the service are doubles.  [average], [standardDeviation]
    and the tier test of [calculateCycleStats] are repeated here on binary64
    values, to compare the tier that the code computes with the tier of the
    exact value where the two can differ. *)

Module Binary64.

Definition number (n : Z) : PrimFloat.float := PrimFloat.of_uint63 (Uint63.of_Z n).

Definition average (numbers : list PrimFloat.float) : PrimFloat.float :=
  if decide (length numbers = 0%nat) then number 0
  else
    PrimFloat.div (foldl PrimFloat.add (number 0) numbers)
      (number (Z.of_nat (length numbers))).

(** [Math.pow(x, 2)]: the square of [x], rounded once. *)
Definition Math_pow_2 (x : PrimFloat.float) : PrimFloat.float := PrimFloat.mul x x.

Definition standardDeviation (numbers : list PrimFloat.float) : PrimFloat.float :=
  if decide (length numbers = 0%nat) then number 0
  else
    let avg := average numbers in
    let squareDiffs := map (fun num => Math_pow_2 (PrimFloat.sub num avg)) numbers in
    PrimFloat.sqrt (average squareDiffs).

Definition classify (standardDeviation : PrimFloat.float) : Regularity :=
  if PrimFloat.ltb standardDeviation (number 2) then very_regular
  else if PrimFloat.ltb standardDeviation (number 4) then regular
  else if PrimFloat.ltb standardDeviation (number 7) then somewhat_irregular
  else irregular.

End Binary64.

(** ** The Redis server, as the [ioredis] client sees it *)

(** The JSON body of [GET /next-period]; nested objects are flattened into
    path-like field names.  Dates are cut to their UTC day
    ([toISOString().split('T')[0]]); [toFixed(2)] keeps the surd. *)
Record ResponseData : Type := {
  next_period_predicted_start_date : Z;
  next_period_predicted_end_date : Z;
  next_period_confidence_score : Q;
  next_period_predicted_flow_intensity : option FlowIntensity;
  ovulation_predicted_start_date : Z;
  ovulation_predicted_end_date : Z;
  cycle_stats_avg_cycle_length : Z;
  cycle_stats_avg_period_length : Z;
  cycle_stats_cycle_regularity : Regularity;
  cycle_stats_cycle_variation : Surd;
  cycle_stats_cycles_tracked : nat;
}.

Module Redis.

(** A stored string: the JSON text of a response, or any other text. *)
Inductive Blob : Type :=
| Json (data : ResponseData)
| Text (s : string).

Record Entry : Type := {
  payload : Blob;
  expires_at : Date;
}.

(** The keyspace, and for each coming command whether it will fail
    (connection lost, timeout, ...); no entry means it goes through. *)
Record Client : Type := {
  store : gmap string Entry;
  faults : list bool;
}.

Definition attempt (c : Client) : bool * Client :=
  match faults c with
  | [] => (false, c)
  | failed :: rest => (failed, {| store := store c; faults := rest |})
  end.

(** Expiry is lazy: an entry past its time stays in the keyspace and is
    not seen. *)
Definition live (now : Date) (e : Entry) : bool := bool_decide (now < expires_at e)%Z.

Definition lookup_live (now : Date) (key : string) (c : Client) : option Entry :=
  match store c !! key with
  | Some e => if live now e then Some e else None
  | None => None
  end.

(** [KEYS pattern] matches keys with the server's glob matcher
    ([stringmatchlen] in the server's [util.c], case-sensitive): [*] is any
    run of characters, [?] any one character, [[...]] a class of characters
    with ranges [a-z], negated by a leading [^], and a backslash takes the
    next character literally.  The matcher is followed step by step, also
    where a pattern is irregular: a class that is not closed ends with the
    pattern, a backslash at the end stands for itself, and the empty key is
    matched by the empty pattern and by [*] alone. *)

(** A byte of a key or pattern as the server's C [char], taken as signed;
    only the order of bytes above 127 in a range depends on it. *)
Definition char (c : ascii) : Z :=
  let code := Z.of_N (N_of_ascii c) in
  if (code <? 128)%Z then code else (code - 256)%Z.

(** Where the matcher stands in the pattern: in its main loop, or between
    the brackets of a class, with the [^] flag and whether a member has
    matched the current character. *)
Inductive Place : Type :=
| Main
| Class (negated matched : bool).

(** Once the key is used up, what is left of the pattern may only be
    stars. *)
Fixpoint stars (pattern : string) : bool :=
  match pattern with
  | EmptyString => true
  | String c rest => Ascii.eqb c "*" && stars rest
  end.

(** The end of one pass of the main loop: one character of the key has
    been consumed, [rest] is left of the pattern and [s'] of the key;
    [again] is the next pass. *)
Definition advance (rest s' : string) (again : bool) : bool :=
  match s' with
  | EmptyString => stars rest
  | String _ _ => again
  end.

(** [c] is in the range written [first-last]; the bounds are swapped when
    they come in the wrong order. *)
Definition within (first last c : ascii) : bool :=
  let lo := Z.min (char first) (char last) in
  let hi := Z.max (char first) (char last) in
  bool_decide (lo ≤ char c ≤ hi)%Z.

(** A star calls the matcher again on each suffix of the key; calls nested
    deeper than this fail. *)
Definition nesting_limit : nat := 1000.

Fixpoint stringmatchlen (nesting : nat) (pattern : string) (place : Place)
    (s : string) {struct pattern} : bool :=
  match s with
  | EmptyString => match pattern with EmptyString => true | String _ _ => false end
  | String x s' =>
      match place with
      | Main =>
          match pattern with
          | EmptyString => false
          | String c rest =>
              if Ascii.eqb c "*" then
                match rest with
                | EmptyString => true
                | String c' _ =>
                    if Ascii.eqb c' "*" then stringmatchlen nesting rest Main s
                    else if bool_decide (nesting_limit < S nesting)%nat then false
                    else
                      (fix search (s : string) : bool :=
                         match s with
                         | EmptyString => false
                         | String _ shorter =>
                             stringmatchlen (S nesting) rest Main s || search shorter
                         end) s
                end
              else if Ascii.eqb c "?" then
                advance rest s' (stringmatchlen nesting rest Main s')
              else if Ascii.eqb c "[" then
                match rest with
                | String "^" members => stringmatchlen nesting members (Class true false) s
                | _ => stringmatchlen nesting rest (Class false false) s
                end
              else if Ascii.eqb c "\" then
                match rest with
                | EmptyString =>
                    Ascii.eqb c x && advance rest s' (stringmatchlen nesting rest Main s')
                | String escaped rest' =>
                    Ascii.eqb escaped x &&
                    advance rest' s' (stringmatchlen nesting rest' Main s')
                end
              else
                Ascii.eqb c x && advance rest s' (stringmatchlen nesting rest Main s')
          end
      | Class negated matched =>
          match pattern with
          | EmptyString => xorb negated matched && advance EmptyString s' false
          | String c rest =>
              match rest with
              | String c1 rest1 =>
                  if Ascii.eqb c "\" then
                    stringmatchlen nesting rest1
                      (Class negated (matched || Ascii.eqb c1 x)) s
                  else if Ascii.eqb c "]" then
                    xorb negated matched &&
                    advance rest s' (stringmatchlen nesting rest Main s')
                  else
                    match rest1 with
                    | String last rest2 =>
                        if Ascii.eqb c1 "-" then
                          stringmatchlen nesting rest2
                            (Class negated (matched || within c last x)) s
                        else
                          stringmatchlen nesting rest
                            (Class negated (matched || Ascii.eqb c x)) s
                    | EmptyString =>
                        stringmatchlen nesting rest
                          (Class negated (matched || Ascii.eqb c x)) s
                    end
              | EmptyString =>
                  if Ascii.eqb c "]" then
                    xorb negated matched &&
                    advance rest s' (stringmatchlen nesting rest Main s')
                  else
                    stringmatchlen nesting rest
                      (Class negated (matched || Ascii.eqb c x)) s
              end
          end
      end
  end.

(** What [KEYS pattern] decides for one key; the pattern [*] alone takes
    every key without running the matcher. *)
Definition glob (pattern key : string) : bool :=
  String.eqb pattern "*" || stringmatchlen 0 pattern Main key.

(** A key in which no character is special to the matcher other than [?]. *)
Fixpoint verbatim (key : string) : bool :=
  match key with
  | EmptyString => true
  | String c rest =>
      negb (Ascii.eqb c "*") && negb (Ascii.eqb c "[") && negb (Ascii.eqb c "\")
      && verbatim rest
  end.

Definition failure {A} : Except A := Throw (RedisError "Connection is closed.").

Definition get (now : Date) (key : string) (c : Client)
    : Except (option Blob) * Client :=
  let '(failed, c) := attempt c in
  if failed then (failure, c)
  else (Ok (payload <$> lookup_live now key c), c).

Definition setex (now : Date) (key : string) (ttl : Z) (value : Blob) (c : Client)
    : Except unit * Client :=
  let '(failed, c) := attempt c in
  if failed then (failure, c)
  else
    let e := {| payload := value; expires_at := (now + ttl * 1000)%Z |} in
    (Ok tt, {| store := <[key := e]> (store c); faults := faults c |}).

Definition keys (now : Date) (pattern : string) (c : Client)
    : Except (list string) * Client :=
  let '(failed, c) := attempt c in
  if failed then (failure, c)
  else
    (Ok (List.filter (fun k => glob pattern k && bool_decide (is_Some (lookup_live now k c)))
           (map fst (map_to_list (store c)))), c).

Definition del (ks : list string) (c : Client) : Except unit * Client :=
  let '(failed, c) := attempt c in
  if failed then (failure, c)
  else (Ok tt, {| store := foldr delete (store c) ks; faults := faults c |}).

End Redis.

(** ** [config/redis.ts]: the cache helpers *)

(** [try { body } catch (error) { handler }] *)
Definition try_catch {A} (body : Except A) (handler : Error → Except A) : Except A :=
  match body with
  | Ok a => Ok a
  | Throw error => handler error
  end.

Module cacheHelpers.

Definition JSON_parse (b : Redis.Blob) : Except ResponseData :=
  match b with
  | Redis.Json data => Ok data
  | Redis.Text _ => Throw (SyntaxError "Unexpected token in JSON")
  end.

Definition JSON_stringify (value : ResponseData) : Redis.Blob := Redis.Json value.

(** Truthiness of a string: only the empty one is falsy. *)
Definition truthy (cached : Redis.Blob) : bool :=
  match cached with
  | Redis.Text EmptyString => false
  | _ => true
  end.

Definition get (now : Date) (key : string) (redis : option Redis.Client)
    : Except (option ResponseData) * option Redis.Client :=
  match redis with
  | None => (Ok None, None)
  | Some c =>
      let '(reply, c) := Redis.get now key c in
      (try_catch
         (cached ← reply;
          match cached with
          | Some blob => if truthy blob then Some <$> JSON_parse blob else Ok None
          | None => Ok None
          end)
         (fun error => Ok None),
       Some c)
  end.

Definition set (now : Date) (key : string) (value : ResponseData) (ttl : Z)
    (redis : option Redis.Client) : Except unit * option Redis.Client :=
  match redis with
  | None => (Ok tt, None)
  | Some c =>
      let '(reply, c) := Redis.setex now key ttl (JSON_stringify value) c in
      (try_catch reply (fun error => Ok tt), Some c)
  end.

Definition delete (now : Date) (pattern : string) (redis : option Redis.Client)
    : Except unit * option Redis.Client :=
  match redis with
  | None => (Ok tt, None)
  | Some c =>
      let '(body, c) :=
        let '(reply, c) := Redis.keys now pattern c in
        match reply with
        | Ok ks =>
            if decide (0 < length ks)%nat then Redis.del ks c else (Ok tt, c)
        | Throw error => (Throw error, c)
        end in
      (try_catch body (fun error => Ok tt), Some c)
  end.

End cacheHelpers.

(** ** The routes that read and write the cache *)

(** What a request handler runs against: the database and the process-wide
    Redis client ([null] when [REDIS_URL] is not set). *)
Record World : Type := {
  db : Database;
  redis : option Redis.Client;
}.

Module PredictionsRoute.
Import PredictionService.

Record Response : Type := {
  success : bool;
  data : ResponseData;
  cached : bool;
}.

(** [`predictions:${userId}`] *)
Definition cacheKey (userId : string) : string := "predictions:" +:+ userId.

(** [date.toISOString().split('T')[0]], as a day number. *)
Definition isoDay (date : Date) : Z := (date / oneDay)%Z.

Definition responseData (p : PredictionWithStats) : ResponseData :=
  {| next_period_predicted_start_date := isoDay (predictedStartDate (prediction p));
     next_period_predicted_end_date := isoDay (predictedEndDate (prediction p));
     next_period_confidence_score := confidenceScore (prediction p);
     next_period_predicted_flow_intensity := predictedFlowIntensity (prediction p);
     ovulation_predicted_start_date := isoDay (ovulationStart (prediction p));
     ovulation_predicted_end_date := isoDay (ovulationEnd (prediction p));
     cycle_stats_avg_cycle_length := Math_round (avgCycleLength (cycleStats p));
     cycle_stats_avg_period_length := Math_round (avgPeriodLength (cycleStats p));
     cycle_stats_cycle_regularity := regularity (cycleStats p);
     cycle_stats_cycle_variation := standardDeviation (cycleStats p);
     cycle_stats_cycles_tracked := cyclesTracked (cycleStats p) |}.

(** [GET /next-period].  [Throw] is what the handler hands to [next]. *)
Definition next_period (now : Date) (userId : string) (w : World)
    : Except Response * World :=
  let cacheKey := cacheKey userId in
  let '(cachedPrediction, redis) := cacheHelpers.get now cacheKey (redis w) in
  match cachedPrediction with
  | Throw error => (Throw error, {| db := db w; redis := redis |})
  | Ok (Some cachedPrediction) =>
      (Ok {| success := true; data := cachedPrediction; cached := true |},
       {| db := db w; redis := redis |})
  | Ok None =>
      match predictNextPeriod now userId (db w) with
      | Throw error => (Throw error, {| db := db w; redis := redis |})
      | Ok (prediction, db) =>
          let responseData := responseData prediction in
          let '(done, redis) := cacheHelpers.set now cacheKey responseData 3600 redis in
          match done with
          | Throw error => (Throw error, {| db := db; redis := redis |})
          | Ok _ =>
              (Ok {| success := true; data := responseData; cached := false |},
               {| db := db; redis := redis |})
          end
      end
  end.

End PredictionsRoute.

Module PeriodsRoute.

(** A request body that passed [createPeriodSchema]. *)
Record CreatePeriod : Type := {
  body_start_date : Z;
  body_end_date : option Z;
  body_flow_intensity : option FlowIntensity;
}.

Definition Period_create (row : Period) (d : Database) : Database :=
  {| periods_table := periods_table d ++ [row];
     user_settings_table := user_settings_table d;
     predictions_table := predictions_table d |}.

(** [POST /]: store the period, then [cacheHelpers.delete(`prediction:${userId}`)]. *)
Definition create (now : Date) (userId : string) (validatedData : CreatePeriod)
    (w : World) : Except Period * World :=
  let period :=
    {| user_id := userId;
       start_date := body_start_date validatedData;
       end_date := body_end_date validatedData;
       flow_intensity := body_flow_intensity validatedData |} in
  let db := Period_create period (db w) in
  let '(done, redis) := cacheHelpers.delete now ("prediction:" +:+ userId) (redis w) in
  match done with
  | Throw error => (Throw error, {| db := db; redis := redis |})
  | Ok _ => (Ok period, {| db := db; redis := redis |})
  end.

End PeriodsRoute.

(** ** The specification's vocabulary *)

Module Spec.

Definition sum (samples : list Q) : Q := foldr Qplus 0%Q samples.

(** Arithmetic mean; of no samples it is 0. *)
Definition mean (samples : list Q) : Q :=
  (sum samples / inject_Z (Z.of_nat (length samples)))%Q.

(** Whole days from each record's start back to the next older record's. *)
Definition intervals (periods : list Period) : list Z :=
  zip_with (fun newer older => (start_date newer - start_date older)%Z)
    periods (tail periods).

Definition valid (sample : Z) : Prop := (21 ≤ sample ≤ 45)%Z.
#[global] Instance valid_dec sample : Decision (valid sample) := _.

(** The interval samples that pass the validity filter. *)
Definition intervalSamples (periods : list Period) : list Z :=
  filter valid (intervals periods).

(** The confidence interval of the data model. *)
Definition in_range (c : Q) : Prop := ((40 # 100) <= c)%Q ∧ (c <= (95 # 100))%Q.




Definition boost (count : nat) : Q :=
  (Qmin (inject_Z (Z.of_nat count) / 12) 1 * (8 # 100))%Q.

(** Population variance and standard deviation, about the unweighted mean. *)
Definition variance (samples : list Q) : Q :=
  mean (map (fun x => ((x - mean samples) ^ 2)%Q) samples).



(** The standard deviations at which one tier ends and the next begins. *)
Definition tier_bounds : list Q := [2; 4; 7]%Q.

#[global] Instance Qeq_decision (x y : Q) : Decision (x == y)%Q :=
  decide (Qnum x * QDen y = Qnum y * QDen x)%Z.

(** The standard deviation of the samples is on none of the tier bounds. *)
Definition off_bounds (samples : list Q) : Prop :=
  Forall (fun bound => ¬ variance samples == bound * bound) tier_bounds.
#[global] Instance off_bounds_dec samples : Decision (off_bounds samples) := _.

(** Durations of the records that have an end date, first day included. *)
Definition durations (periods : list Period) : list Z :=
  omap (fun p => (fun e => e - start_date p + 1)%Z <$> end_date p) periods.

Definition plausible (duration : Z) : Prop := (2 ≤ duration ≤ 10)%Z.
#[global] Instance plausible_dec duration : Decision (plausible duration) := _.

(** Average record duration over plausible durations, 5 when there is none. *)
Definition averageDuration (periods : list Period) : Q :=
  match filter plausible (durations periods) with
  | [] => 5%Q
  | ds => mean (map inject_Z ds)
  end.

End Spec.

(** ** Concrete histories *)

Module Scenario.

(** A completed record of user [u1]: first day and number of days. *)
Definition record (start days : Z) : Period :=
  {| user_id := "u1";
     start_date := start;
     end_date := Some (start + days - 1)%Z;
     flow_intensity := None |}.

Definition database (rows : list Period) : Database :=
  {| periods_table := rows; user_settings_table := ∅; predictions_table := [] |}.

(** Records, newest first, whose starts are the given intervals apart; the
    oldest starts on day 0. *)
Fixpoint history (intervals : list Z) : list Period :=
  match intervals with
  | [] => [record 0 5]
  | d :: older =>
      match history older with
      | [] => []
      | previous :: rest => record (start_date previous + d) 5 :: previous :: rest
      end
  end.

(** Scenario B: nine records. *)
Definition scenarioB : list Period := history [28; 27; 27; 29; 28; 26; 28; 29]%Z.

(** Scenario A: eleven records. *)
Definition scenarioA : list Period :=
  history [22; 25; 24; 26; 22; 27; 21; 25; 22; 35]%Z.

(** Four records whose intervals, newest first, are [28; 29; 29]. *)
Definition fourRecords : Database :=
  database (map (fun start => record start 5) [0; 29; 58; 86]%Z).

(** Seven records whose intervals, newest first, are
    [30; 30; 30; 26; 26; 26]: their mean is 28 days. *)
Definition sevenRecords : Database :=
  database (history [30; 30; 30; 26; 26; 26]%Z).

Definition twoRecords : Database :=
  database (map (fun start => record start 5) [0; 28]%Z).

Definition threeRecords : Database :=
  database (map (fun start => record start 5) [0; 28; 56]%Z).

(** Three records ten days apart. *)
Definition closeRecords : Database :=
  database (map (fun start => record start 5) [0; 10; 20]%Z).

(** Three records, one of them fifteen days long. *)
Definition longRecord : Database :=
  database [record 0 15; record 28 5; record 56 5].

(** A configured cache with nothing in it. *)
Definition world (d : Database) : World :=
  {| db := d; redis := Some {| Redis.store := ∅; Redis.faults := [] |} |}.

Definition newPeriod : PeriodsRoute.CreatePeriod :=
  {| PeriodsRoute.body_start_date := 90;
     PeriodsRoute.body_end_date := Some 94%Z;
     PeriodsRoute.body_flow_intensity := None |}.

End Scenario.

(** ** The calendar route and the cycle progress bar *)

Module CalendarRoute.
Import PredictionService.

(** One element of [predictions] in the body of [GET /calendar]. *)
Record Entry : Type := {
  cycle_number : nat;
  predicted_start_date : Z;
  predicted_end_date : Z;
  ovulation_start : Z;
  ovulation_end : Z;
  confidence_score : Q;
  predicted_flow_intensity : option FlowIntensity;
}.

Record Data : Type := {
  entries : list Entry;
  avg_cycle_length : Z;
  avg_period_length : Z;
  cycle_regularity : Regularity;
  cycle_variation : Surd;
  cycles_tracked : nat;
}.

Definition entry (p : CyclePrediction) : Entry :=
  {| cycle_number := cycleNumber p;
     predicted_start_date := PredictionsRoute.isoDay (predictedStartDate (cycle p));
     predicted_end_date := PredictionsRoute.isoDay (predictedEndDate (cycle p));
     ovulation_start := PredictionsRoute.isoDay (ovulationStart (cycle p));
     ovulation_end := PredictionsRoute.isoDay (ovulationEnd (cycle p));
     confidence_score := confidenceScore (cycle p);
     predicted_flow_intensity := predictedFlowIntensity (cycle p) |}.

(** [GET /calendar].  [months] is [parseInt(req.query.months)], [None]
    when that is [NaN]. *)
Definition calendar (now : Date) (userId : string) (months : option Z) (w : World)
    : Except Data * World :=
  let months := or_default months 3 in
  let numberOfCycles := Z.min months 6 in
  match predictMultipleCycles now userId numberOfCycles (db w) with
  | Throw error => (Throw error, w)
  | Ok (result, db) =>
      (Ok {| entries := map entry (predictions result);
             avg_cycle_length := Math_round (avgCycleLength (multiCycleStats result));
             avg_period_length := Math_round (avgPeriodLength (multiCycleStats result));
             cycle_regularity := regularity (multiCycleStats result);
             cycle_variation := standardDeviation (multiCycleStats result);
             cycles_tracked := cyclesTracked (multiCycleStats result) |},
       {| db := db; redis := redis w |})
  end.

End CalendarRoute.

(** [frontend/src/components/CycleProgressBar.tsx], without the styling. *)
Module CycleProgressBar.

Inductive Phase : Type := Menstrual | Follicular | Ovulation | Luteal.

(** The phase and the bounds of the [range] text, "Days from-to". *)
Record PhaseInfo : Type := {
  phase : Phase;
  range_from : Z;
  range_to : Z;
}.

Definition msPerDay : Z := 1000 * 60 * 60 * 24.

Definition Math_floor (x : Q) : Z := Qfloor x.
Definition Math_ceil (x : Q) : Z := Qceiling x.

(** [avgPeriodLength] of [getCyclePhase], from the last period's dates. *)
Definition lastPeriodLength (lastPeriodDate : Date) (end_date : option Date) : Z :=
  match end_date with
  | Some e => Math_ceil (inject_Z (e - lastPeriodDate) / inject_Z msPerDay)
  | None => 5
  end.

Definition getCyclePhase (avgPeriodLength daysSince cycleLength : Z) : PhaseInfo :=
  if bool_decide (daysSince ≤ avgPeriodLength)%Z then
    {| phase := Menstrual; range_from := 1; range_to := avgPeriodLength |}
  else
    let ovulationDay := (cycleLength - 14)%Z in
    let ovulationWindowStart := (ovulationDay - 2)%Z in
    let ovulationWindowEnd := (ovulationDay + 1)%Z in
    if bool_decide (ovulationWindowStart ≤ daysSince)%Z
       && bool_decide (daysSince ≤ ovulationWindowEnd)%Z then
      {| phase := Ovulation;
         range_from := ovulationWindowStart; range_to := ovulationWindowEnd |}
    else if bool_decide (daysSince < ovulationWindowStart)%Z then
      {| phase := Follicular;
         range_from := (avgPeriodLength + 1)%Z; range_to := (ovulationWindowStart - 1)%Z |}
    else
      {| phase := Luteal;
         range_from := (ovulationWindowEnd + 1)%Z; range_to := cycleLength |}.

Definition daysSinceLastPeriod (today lastPeriodDate : Date) : Z :=
  Math_floor (inject_Z (today - lastPeriodDate) / inject_Z msPerDay).

(** [null] without a predicted date. *)
Definition daysUntilNextPeriod (today : Date) (nextPeriodDate : option Date) : option Z :=
  (fun next => Math_ceil (inject_Z (next - today) / inject_Z msPerDay)) <$> nextPeriodDate.

(** [daysUntilNextPeriod ? daysSinceLastPeriod + daysUntilNextPeriod : 28]:
    [null] and [0] are falsy. *)
Definition actualCycleLength (daysSince : Z) (daysUntil : option Z) : Z :=
  match daysUntil with
  | Some d => if (d =? 0)%Z then 28 else (daysSince + d)%Z
  | None => 28
  end.

(** The phase the component shows. *)
Definition phaseInfo (today lastPeriodDate : Date) (end_date nextPeriodDate : option Date)
    : PhaseInfo :=
  let daysSince := daysSinceLastPeriod today lastPeriodDate in
  let daysUntil := daysUntilNextPeriod today nextPeriodDate in
  getCyclePhase (lastPeriodLength lastPeriodDate end_date) daysSince
    (actualCycleLength daysSince daysUntil).

(** The order in which a cycle goes through its phases. *)
Definition rank (p : Phase) : nat :=
  match p with
  | Menstrual => 0
  | Follicular => 1
  | Ovulation => 2
  | Luteal => 3
  end.

End CycleProgressBar.

(** ** Vocabulary for the cache *)

Module Cache.

(** A configured client on which no command is going to fail. *)
Definition healthy (keyspace : gmap string Redis.Entry) : option Redis.Client :=
  Some {| Redis.store := keyspace; Redis.faults := [] |}.

(** The entry that [cacheHelpers.set] writes at [now]. *)
Definition entry (now : Date) (ttl : Z) (value : ResponseData) : Redis.Entry :=
  {| Redis.payload := Redis.Json value; Redis.expires_at := (now + ttl * 1000)%Z |}.

(** What a reader gets at [now] for [key]: the response stored there, if the
    entry has not expired and holds one. *)
Definition cached (now : Date) (key : string) (keyspace : gmap string Redis.Entry)
    : option ResponseData :=
  match keyspace !! key with
  | Some e =>
      if bool_decide (now < Redis.expires_at e)%Z then
        match Redis.payload e with
        | Redis.Json data => Some data
        | Redis.Text _ => None
        end
      else None
  | None => None
  end.

End Cache.

(** ** Vocabulary for the flow forecast *)

Module Flow.

(** The records the flow forecast looks at: the six newest that carry a
    flow intensity. *)
Definition considered (periods : list Period) : list Period :=
  take 6 (filter (fun p => is_Some (flow_intensity p)) periods).

Definition occurrences (f : FlowIntensity) (l : list Period) : nat :=
  length (filter (fun p => flow_intensity p = Some f) l).

(** Occurrences among the considered records, plus a half for each among the
    three newest of them. *)
Definition tally (f : FlowIntensity) (periods : list Period) : Q :=
  (inject_Z (Z.of_nat (occurrences f (considered periods)))
   + (1 # 2) * inject_Z (Z.of_nat (occurrences f (take 3 (considered periods)))))%Q.

(** The order of the keys of [intensityCounts]. *)
Definition position (f : FlowIntensity) : nat :=
  match f with
  | light => 0
  | moderate => 1
  | heavy => 2
  end.

(** The count that [intensityCounts] holds under a key. *)
Definition count_of (f : FlowIntensity) (c : PredictionService.IntensityCounts) : Q :=
  match f with
  | light => PredictionService.count_light c
  | moderate => PredictionService.count_moderate c
  | heavy => PredictionService.count_heavy c
  end.

(** The counts that [predictFlowIntensity] compares, after both passes. *)
Definition counts (periods : list Period) : PredictionService.IntensityCounts :=
  foldl (PredictionService.bump (1 # 2))
    (foldl (PredictionService.bump 1)
       {| PredictionService.count_light := 0;
          PredictionService.count_moderate := 0;
          PredictionService.count_heavy := 0 |}
       (considered periods))
    (slice 0 3 (considered periods)).

End Flow.

(** ** Vocabulary for ranges *)

Module Range.

Definition between (lo hi x : Q) : Prop := (lo <= x)%Q ∧ (x <= hi)%Q.

(** The fertile window of a prediction: from 19 to 13 days before its start. *)
Definition window (p : PredictionResult) : Prop :=
  ovulationStart p = (predictedStartDate p - 19 * PredictionService.oneDay)%Z ∧
  ovulationEnd p = (predictedStartDate p - 13 * PredictionService.oneDay)%Z.

End Range.

(** * Properties *)

(** ** The prediction service *)

Module PredictionFacts.
Import PredictionService.

Lemma Qfloor_unique (x : Q) (z : Z) :
  (inject_Z z <= x)%Q → (x < inject_Z (z + 1))%Q → Qfloor x = z.
Proof.
  intros Hlo Hhi.
  pose proof (Qfloor_le x) as Hfl. pose proof (Qlt_floor x) as Hfu.
  assert (inject_Z (Qfloor x) < inject_Z (z + 1))%Q as H1 by (eapply Qle_lt_trans; eauto).
  assert (inject_Z z < inject_Z (Qfloor x + 1))%Q as H2 by (eapply Qle_lt_trans; eauto).
  rewrite <- Zlt_Qlt in H1, H2. lia.
Qed.

Lemma Math_round_inject_Z (n : Z) : Math_round (inject_Z n) = n.
Proof.
  unfold Math_round. apply Qfloor_unique.
  - rewrite <- (Qplus_0_r (inject_Z n)) at 1. apply Qplus_le_r. discriminate.
  - rewrite inject_Z_plus. apply Qplus_lt_r. reflexivity.
Qed.

Lemma addDays_whole (date : Date) (n : Z) :
  addDays date (inject_Z n) = (date + n * oneDay)%Z.
Proof. unfold addDays. by rewrite Qfloor_Z. Qed.

Lemma daysBetween_days (a b : Z) :
  daysBetween (new_Date (Some a)) (new_Date (Some b)) = Z.abs (b - a).
Proof.
  unfold daysBetween, new_Date, Math_abs.
  rewrite <- (Math_round_inject_Z (Z.abs (b - a))).
  unfold Math_round. apply Qfloor_comp. apply Qplus_comp; [|reflexivity].
  change (inject_Z (Z.abs (b - a))) with (Qabs (inject_Z (b - a))).
  apply Qabs_wd.
  replace (b * oneDay - a * oneDay)%Z with ((b - a) * oneDay)%Z by lia.
  rewrite inject_Z_mult. field. discriminate.
Qed.

Lemma foldl_Qplus (a : Q) (l : list Q) : foldl Qplus a l == (a + Spec.sum l)%Q.
Proof.
  revert a. induction l as [|x l IH]; intros a; simpl.
  - ring.
  - rewrite IH. ring.
Qed.

Lemma average_mean (l : list Q) : average l == Spec.mean l.
Proof.
  unfold average, Spec.mean. destruct (decide (length l = 0%nat)) as [E|E].
  - apply length_zero_iff_nil in E. by subst.
  - rewrite foldl_Qplus. by rewrite Qplus_0_l.
Qed.

#[global] Instance start_date_desc_total : Total start_date_desc.
Proof. intros a b. unfold start_date_desc. lia. Qed.

Lemma Sorted_take {A} (R : relation A) (n : nat) (l : list A) :
  Sorted R l → Sorted R (take n l).
Proof.
  intros Hs. revert n. induction Hs as [|x l Hs IH Hd]; intros [|n]; simpl; try constructor.
  - apply IH.
  - destruct Hd; destruct n; simpl; by constructor.
Qed.

Lemma findCompletedPeriods_sorted (userId : string) (db : Database) :
  Sorted start_date_desc (findCompletedPeriods userId db).
Proof. apply Sorted_take, Sorted_merge_sort, _. Qed.

Lemma findCompletedPeriods_length (userId : string) (db : Database) :
  (length (findCompletedPeriods userId db) ≤ 12)%nat.
Proof. unfold findCompletedPeriods. rewrite length_take. lia. Qed.

Lemma calculateCycleLengths_step (current previous : Period) (older : list Period) :
  calculateCycleLengths (current :: previous :: older) =
  let cycleLength :=
    daysBetween (new_Date (Some (start_date previous)))
      (new_Date (Some (start_date current))) in
  if bool_decide (21 ≤ cycleLength)%Z && bool_decide (cycleLength ≤ 45)%Z
  then cycleLength :: calculateCycleLengths (previous :: older)
  else calculateCycleLengths (previous :: older).
Proof. reflexivity. Qed.

Lemma intervalSamples_step (current previous : Period) (older : list Period) :
  Spec.intervalSamples (current :: previous :: older) =
  if decide (Spec.valid (start_date current - start_date previous))
  then (start_date current - start_date previous)%Z :: Spec.intervalSamples (previous :: older)
  else Spec.intervalSamples (previous :: older).
Proof. unfold Spec.intervalSamples, Spec.intervals. cbn [tail zip_with]. apply filter_cons. Qed.

Lemma calculateCycleLengths_samples (periods : list Period) :
  Sorted start_date_desc periods →
  calculateCycleLengths periods = Spec.intervalSamples periods.
Proof.
  induction 1 as [|current older Hs IH Hd]; [done|].
  destruct Hd as [|previous older Hrel]; [done|].
  rewrite calculateCycleLengths_step, intervalSamples_step. cbv zeta.
  rewrite IH, daysBetween_days.
  unfold start_date_desc in Hrel. rewrite Z.abs_eq by lia.
  destruct (decide (Spec.valid _)) as [Hv|Hv]; unfold Spec.valid in Hv.
  - by rewrite !bool_decide_eq_true_2 by lia.
  - destruct (bool_decide (21 ≤ _)%Z) eqn:E1; destruct (bool_decide (_ ≤ 45)%Z) eqn:E2;
      simpl; try done.
    apply bool_decide_eq_true in E1, E2. lia.
Qed.

(** Every sequence of valid intervals is the one of some history. *)
Lemma calculateCycleLengths_history (samples : list Z) :
  Forall Spec.valid samples →
  Scenario.history samples ≠ [] ∧
  calculateCycleLengths (Scenario.history samples) = samples.
Proof.
  induction 1 as [|d older Hd Hs [Hne IH]]; [done|].
  cbn [Scenario.history].
  destruct (Scenario.history older) as [|previous rest]; [done|].
  split; [done|]. rewrite calculateCycleLengths_step. cbv zeta.
  rewrite daysBetween_days, IH. cbn [Scenario.record start_date].
  unfold Spec.valid in Hd.
  replace (Z.abs (start_date previous + d - start_date previous)) with d by lia.
  by rewrite !bool_decide_eq_true_2 by lia.
Qed.

Lemma calculateCycleLengths_length (periods : list Period) :
  (length (calculateCycleLengths periods) ≤ length periods - 1)%nat.
Proof.
  induction periods as [|current [|previous older] IH]; [simpl; lia..|].
  rewrite calculateCycleLengths_step. cbv zeta.
  destruct (_ && _); simpl in *; lia.
Qed.

Lemma calculateCycleLengths_valid (periods : list Period) :
  Forall (fun d => 21 ≤ d ≤ 45)%Z (calculateCycleLengths periods).
Proof.
  induction periods as [|current [|previous older] IH]; [by constructor..|].
  rewrite calculateCycleLengths_step. cbv zeta.
  destruct (bool_decide (21 ≤ _)%Z) eqn:E1; simpl; [|done].
  destruct (bool_decide (_ ≤ 45)%Z) eqn:E2; simpl; [|done].
  apply bool_decide_eq_true in E1, E2. by constructor.
Qed.

Lemma calculateConfidence_range (stdDev : Surd) (dataPoints : nat) (avg : Q) :
  Spec.in_range (calculateConfidence stdDev dataPoints avg).
Proof.
  unfold Spec.in_range, calculateConfidence, Math_max, Math_min. split.
  - apply Q.le_max_l.
  - apply Q.max_lub; [discriminate | apply Q.le_min_l].
Qed.

Lemma default_confidence_range (n : nat) :
  (n < 3)%nat → Spec.in_range ((40 # 100) + inject_Z (Z.of_nat n) * (1 # 10)).
Proof.
  intros Hn. assert (n = 0 ∨ n = 1 ∨ n = 2)%nat as [-> | [-> | ->]] by lia;
    split; vm_compute; discriminate.
Qed.

Lemma Math_pow_unit (q : Q) (i : nat) :
  (0 <= q)%Q → (q <= 1)%Q → (0 <= Math_pow q i)%Q ∧ (Math_pow q i <= 1)%Q.
Proof.
  intros H0 H1. unfold Math_pow. split; [by apply Qpower_0_le|].
  induction i as [|i IH]; [discriminate|].
  rewrite Nat2Z.inj_succ, <- Z.add_1_r.
  destruct (Qeq_dec q 0) as [E|E].
  - rewrite E. rewrite Qpower_0; [discriminate | lia].
  - rewrite Qpower_plus by done. simpl (q ^ 1)%Q.
    apply Qle_trans with (1 * 1)%Q; [|discriminate].
    apply Qmult_le_compat_nonneg; split; try done. apply Qpower_0_le; done.
Qed.

Lemma decayed_confidence_range (c : Q) (i : nat) :
  Spec.in_range c → Spec.in_range (Math_max (c * Math_pow (95 # 100) i) (40 # 100)).
Proof.
  intros [Hlo Hhi]. unfold Spec.in_range, Math_max.
  destruct (Math_pow_unit (95 # 100) i) as [P0 P1]; [discriminate..|].
  split; [apply Q.le_max_r|].
  apply Q.max_lub; [|discriminate].
  apply Qle_trans with c; [|done].
  apply Qle_trans with (c * 1)%Q; [|rewrite Qmult_1_r; apply Qle_refl].
  apply Qmult_le_l; [|done].
  apply Qlt_le_trans with (40 # 100)%Q; [reflexivity | done].
Qed.

(** The two branches of [predictNextPeriod]. *)
Lemma predictNextPeriod_default (now : Date) (userId : string) (db : Database) :
  let periods := findCompletedPeriods userId db in
  (length periods < 3)%nat →
  predictNextPeriod now userId db = Ok (useDefaultPrediction now userId periods db, db).
Proof. intros periods Hn. unfold predictNextPeriod. fold periods. by rewrite decide_True. Qed.

Lemma predictNextPeriod_statistical (now : Date) (userId : string) (db : Database) :
  let periods := findCompletedPeriods userId db in
  (3 ≤ length periods)%nat →
  ∃ p0 r db',
    periods !! 0%nat = Some p0 ∧
    predictNextPeriod now userId db = Ok (r, db') ∧
    cycleStats r = calculateCycleStats periods ∧
    predictedStartDate (prediction r) =
      addDays (new_Date (Some (start_date p0)))
        (inject_Z (Math_round (calculateWeightedCycleLength periods))) ∧
    predictedEndDate (prediction r) =
      addDays (predictedStartDate (prediction r))
        (inject_Z (Math_round (calculateAveragePeriodLength periods) - 1)) ∧
    confidenceScore (prediction r) =
      calculateConfidence (standardDeviation (calculateCycleStats periods))
        (length periods) (avgCycleLength (calculateCycleStats periods)) ∧
    predictions_table db' = predictions_table db ++ [(userId, prediction r)].
Proof.
  intros periods Hn. unfold predictNextPeriod. fold periods.
  rewrite decide_False by lia.
  destruct periods as [|p0 rest] eqn:E; [simpl in Hn; lia|].
  eexists p0, _, _. split; [done|]. split; [reflexivity|]. by repeat split.
Qed.

Lemma predictNextPeriod_returns (now : Date) (userId : string) (db : Database) :
  ∃ r db', predictNextPeriod now userId db = Ok (r, db').
Proof.
  destruct (decide (length (findCompletedPeriods userId db) < 3)%nat) as [Hn|Hn].
  - eexists _, _. by apply predictNextPeriod_default.
  - destruct (predictNextPeriod_statistical now userId db) as (p0 & r & db' & _ & H & _);
      [lia | by exists r, db'].
Qed.

Lemma predictNextPeriod_confidence (now : Date) (userId : string) (db db' : Database)
    (r : PredictionWithStats) :
  predictNextPeriod now userId db = Ok (r, db') →
  Spec.in_range (confidenceScore (prediction r)).
Proof.
  intros H.
  destruct (decide (length (findCompletedPeriods userId db) < 3)%nat) as [Hn|Hn].
  - rewrite predictNextPeriod_default in H by done. injection H as <- <-.
    by apply default_confidence_range.
  - destruct (predictNextPeriod_statistical now userId db) as (p0 & r' & db'' & _ & H' & _ & _ & _ & Hc & _);
      [lia|].
    rewrite H' in H. injection H as <- <-. rewrite Hc. apply calculateConfidence_range.
Qed.

Lemma moreCycles_spec (first : PredictionWithStats) (avg : Q) (count i : nat)
    (predictions : list CyclePrediction) :
  length predictions = i → (1 ≤ i)%nat →
  ∃ result,
    moreCycles first avg i count predictions = Ok result ∧
    length result = (i + count)%nat ∧
    predictions `prefix_of` result ∧
    ∀ k previous current,
      (i ≤ S k)%nat →
      result !! k = Some previous → result !! S k = Some current →
      current = cycleAfter first avg (S k) previous.
Proof.
  revert i predictions. induction count as [|count IH]; intros i predictions Hlen Hi.
  - exists predictions. repeat split; [simpl; lia | done |].
    intros k previous current Hk _ Hc. apply lookup_lt_Some in Hc. lia.
  - cbn [moreCycles].
    destruct (lookup_lt_is_Some_2 predictions (i - 1)) as [previous Hprev]; [lia|].
    unfold element. rewrite Hprev. cbn.
    set (new := cycleAfter first avg i previous).
    destruct (IH (S i) (predictions ++ [new])) as (result & Hrun & Hl & Hpre & Hstep);
      [rewrite length_app; simpl; lia | lia |].
    exists result. split; [done|]. split; [lia|].
    split; [etrans; [by apply prefix_app_r|done]|].
    intros k prev cur Hk Hp Hc.
    destruct (decide (S k = i)) as [<-|Hne]; [|apply Hstep; [lia|done..]].
    assert (result !! k = Some previous) as Hp'.
    { eapply prefix_lookup_Some; [|done]. rewrite lookup_app_l by lia.
      by replace k with (S k - 1)%nat by lia. }
    assert (result !! S k = Some new) as Hc'.
    { eapply prefix_lookup_Some; [|done]. rewrite lookup_app_r by lia.
      by rewrite Hlen, Nat.sub_diag. }
    subst new. congruence.
Qed.

Lemma predictMultipleCycles_spec (now : Date) (userId : string) (numberOfCycles : Z)
    (db : Database) :
  ∃ first m db',
    predictNextPeriod now userId db = Ok (first, db') ∧
    predictMultipleCycles now userId numberOfCycles db = Ok (m, db') ∧
    multiCycleStats m = cycleStats first ∧
    length (predictions m) = Z.to_nat (Z.max 1 numberOfCycles) ∧
    predictions m !! 0%nat = Some {| cycle := prediction first; cycleNumber := 1 |} ∧
    ∀ k previous current,
      predictions m !! k = Some previous → predictions m !! S k = Some current →
      current = cycleAfter first (avgCycleLength (cycleStats first)) (S k) previous.
Proof.
  destruct (predictNextPeriod_returns now userId db) as (first & db' & Hfirst).
  unfold predictMultipleCycles. rewrite Hfirst. cbn.
  set (start := [{| cycle := prediction first; cycleNumber := 1 |}]).
  destruct (moreCycles_spec first (avgCycleLength (cycleStats first))
              (Z.to_nat (numberOfCycles - 1)) 1 start)
    as (result & Hrun & Hl & Hpre & Hstep); [done..|].
  rewrite Hrun. cbn. eexists first, _, db'. split; [done|]. split; [reflexivity|]. repeat split; cbn.
  - lia.
  - eapply prefix_lookup_Some; [|done]. done.
  - intros k previous current Hp Hc. apply (Hstep k); [lia|done..].
Qed.

Lemma addDays_comp (date : Date) (x y : Q) : x == y → addDays date x = addDays date y.
Proof. intros E. unfold addDays. by rewrite (Qfloor_comp _ _ E). Qed.


Lemma sum_nonneg (l : list Q) : Forall (fun x => 0 <= x)%Q l → (0 <= Spec.sum l)%Q.
Proof.
  induction 1 as [|x l Hx Hl IH]; simpl; [discriminate|].
  replace 0%Q with (0 + 0)%Q by done. by apply Qplus_le_compat.
Qed.

Lemma mean_nonneg (l : list Q) : Forall (fun x => 0 <= x)%Q l → (0 <= Spec.mean l)%Q.
Proof.
  intros H. unfold Spec.mean, Qdiv. apply Qmult_le_0_compat; [by apply sum_nonneg|].
  apply Qinv_le_0_compat. change 0%Q with (inject_Z 0). rewrite <- Zle_Qle. lia.
Qed.

Lemma variance_nonneg (l : list Q) : (0 <= Spec.variance l)%Q.
Proof.
  apply mean_nonneg, Forall_map, Forall_forall. intros x _. apply Qsqr_nonneg.
Qed.

Lemma sum_map_ext (f g : Q → Q) (l : list Q) :
  (∀ x, f x == g x) → Spec.sum (map f l) == Spec.sum (map g l).
Proof. intros E. induction l as [|x l IH]; simpl; [done|]. by rewrite E, IH. Qed.

Lemma mean_map_ext (f g : Q → Q) (l : list Q) :
  (∀ x, f x == g x) → Spec.mean (map f l) == Spec.mean (map g l).
Proof.
  intros E. unfold Spec.mean. rewrite !length_map. unfold Qdiv.
  apply Qmult_comp; [by apply sum_map_ext | reflexivity].
Qed.

Lemma standardDeviation_variance (l : list Q) :
  radicand (standardDeviation_of l) == Spec.variance l.
Proof.
  unfold standardDeviation_of, Spec.variance.
  destruct (decide (length l = 0%nat)) as [E|E].
  - apply length_zero_iff_nil in E. by subst.
  - cbn. rewrite average_mean. apply mean_map_ext. intros x.
    by rewrite average_mean.
Qed.

Lemma Surd_ltb_comp (s : Surd) (v c : Q) :
  radicand s == v → Surd_ltb s c = bool_decide (v < c * c)%Q.
Proof. intros E. unfold Surd_ltb. apply bool_decide_ext. by rewrite E. Qed.





Lemma intervalSamples_none (periods : list Period) :
  Forall (fun d => ¬ Spec.valid d) (Spec.intervals periods) →
  Spec.intervalSamples periods = [].
Proof.
  unfold Spec.intervalSamples. induction 1 as [|d ds Hd Hds IH]; [done|].
  rewrite filter_cons. by rewrite decide_False.
Qed.

Lemma durations_step (p : Period) (periods : list Period) :
  Spec.durations (p :: periods) =
  match end_date p with
  | Some e => (e - start_date p + 1)%Z :: Spec.durations periods
  | None => Spec.durations periods
  end.
Proof. unfold Spec.durations. simpl. by destruct (end_date p). Qed.

Lemma plausible_durations (periods : list Period) :
  Forall (fun p => ∀ e, end_date p = Some e → (start_date p ≤ e)%Z) periods →
  List.filter (fun length => bool_decide (2 ≤ length)%Z && bool_decide (length ≤ 10)%Z)
    (map periodLength (List.filter has_end_date periods)) =
  filter Spec.plausible (Spec.durations periods).
Proof.
  induction 1 as [|p periods Hp Hps IH]; [done|].
  rewrite durations_step. cbn [List.filter]. unfold has_end_date at 1.
  destruct (end_date p) as [e|] eqn:E; [|exact IH].
  cbn [map List.filter]. rewrite filter_cons, IH.
  unfold periodLength.
  rewrite E, daysBetween_days, Z.abs_eq by (specialize (Hp e eq_refl); lia).
  destruct (decide _) as [Hd|Hd]; unfold Spec.plausible in Hd.
  - by rewrite !bool_decide_eq_true_2 by lia.
  - destruct (bool_decide (2 ≤ _)%Z) eqn:E1; destruct (bool_decide (_ ≤ 10)%Z) eqn:E2;
      try done.
    apply bool_decide_eq_true in E1, E2. lia.
Qed.

Lemma calculateAveragePeriodLength_spec (periods : list Period) :
  Forall (fun p => ∀ e, end_date p = Some e → (start_date p ≤ e)%Z) periods →
  calculateAveragePeriodLength periods == Spec.averageDuration periods.
Proof.
  intros H. unfold calculateAveragePeriodLength, Spec.averageDuration.
  rewrite (plausible_durations periods H).
  destruct (filter _ _) as [|d ds]; [done|].
  rewrite decide_True by (simpl; lia). apply average_mean.
Qed.

(** Whole samples: how far the variance is from a tier bound when it is not
    on it. *)

Lemma sum_whole (f : Q → Q) (g : Z → Z) (c : Q) (xs : list Z) :
  (∀ x, f (inject_Z x) * c == inject_Z (g x)) →
  Spec.sum (map f (map inject_Z xs)) * c == inject_Z (foldr Z.add 0%Z (map g xs)).
Proof.
  intros E. induction xs as [|x xs IH]; simpl; [ring|].
  rewrite inject_Z_plus, <- IH, <- E. ring.
Qed.

Lemma sum_inject_Z (xs : list Z) :
  Spec.sum (map inject_Z xs) == inject_Z (foldr Z.add 0%Z xs).
Proof.
  induction xs as [|x xs IH]; simpl; [done|]. by rewrite inject_Z_plus, IH.
Qed.

(** The variance of [n] whole samples is a whole multiple of [1 / n^3]. *)
Lemma variance_whole (xs : list Z) :
  let n := Z.of_nat (length xs) in
  let total := foldr Z.add 0%Z xs in
  Spec.variance (map inject_Z xs) * inject_Z (n ^ 3) ==
  inject_Z (foldr Z.add 0%Z (map (fun x => (n * x - total) ^ 2)%Z xs)).
Proof.
  intros n total. unfold Spec.variance.
  destruct (decide (n = 0%Z)) as [E|E].
  - assert (xs = []) as -> by (apply length_zero_iff_nil; lia). by vm_compute.
  - assert (¬ inject_Z n == 0) as Hn.
    { unfold Qeq. simpl. lia. }
    set (m := Spec.mean (map inject_Z xs)).
    assert (m * inject_Z n == inject_Z total) as Hm.
    { subst m. unfold Spec.mean. rewrite length_map, sum_inject_Z. fold n total.
      by field. }
    rewrite <- (sum_whole (fun x => ((x - m) ^ 2)%Q) _ (inject_Z (n ^ 2))).
    + unfold Spec.mean. rewrite !length_map. fold n.
      replace (n ^ 3)%Z with (n * n * n)%Z by ring.
      replace (n ^ 2)%Z with (n * n)%Z by ring.
      rewrite !inject_Z_mult. by field.
    + intros x. replace ((n * x - total) ^ 2)%Z
        with ((n * x + - total) * (n * x + - total))%Z by ring.
      replace (n ^ 2)%Z with (n * n)%Z by ring.
      rewrite !inject_Z_mult, !inject_Z_plus, inject_Z_opp, inject_Z_mult, <- Hm.
      ring.
Qed.

(** Whole samples whose variance is not the square of a whole number [c]
    have a variance at least [1 / n^3] away from it. *)
Lemma variance_margin (xs : list Z) (c : Z) :
  let n := Z.of_nat (length xs) in
  let v := Spec.variance (map inject_Z xs) in
  xs ≠ [] →
  ¬ v == inject_Z c * inject_Z c →
  (1 <= Qabs (v - inject_Z c * inject_Z c) * inject_Z (n ^ 3))%Q.
Proof.
  intros n v Hxs Hv. pose proof (variance_whole xs) as Hw. cbv zeta in Hw.
  fold n v in Hw. set (k := foldr Z.add 0%Z _) in Hw.
  assert (0 < n)%Z as Hn by (subst n; destruct xs; [done | simpl; lia]).
  assert (0 < inject_Z (n ^ 3))%Q as Hn3.
  { unfold Qlt. simpl. nia. }
  assert ((v - inject_Z c * inject_Z c) * inject_Z (n ^ 3)
          == inject_Z (k - c * c * n ^ 3)) as Hd.
  { unfold Z.sub. rewrite inject_Z_plus, inject_Z_opp, !inject_Z_mult, <- Hw. ring. }
  rewrite <- (Qabs_pos (inject_Z (n ^ 3))) by by apply Qlt_le_weak.
  rewrite <- Qabs_Qmult, Hd.
  assert (k - c * c * n ^ 3 ≠ 0)%Z as Hne.
  { intros E. apply Hv. rewrite E in Hd.
    apply Qmult_integral in Hd as [Hd|Hd].
    - Lqa.lra.
    - rewrite Hd in Hn3. by apply Qlt_irrefl in Hn3. }
  unfold Qabs, Qle. simpl. lia.
Qed.

(** On a tier bound the double and the exact value can part: these nine
    intervals have a standard deviation of exactly 2, which is not below 2,
    and the double that the code computes for them is below 2; the same
    happens at 4. *)
Lemma classify_on_bound :
  let samples := [31; 23; 26; 26; 26; 27; 27; 26; 25]%Z in
  let samples' := [31; 30; 36; 22; 30; 32; 35; 27; 33]%Z in
  Spec.variance (map inject_Z samples) == 4 ∧
  classify (standardDeviation_of (map inject_Z samples)) = regular ∧
  Binary64.classify (Binary64.standardDeviation (map Binary64.number samples))
    = very_regular ∧
  Spec.variance (map inject_Z samples') == 16 ∧
  classify (standardDeviation_of (map inject_Z samples')) = somewhat_irregular ∧
  Binary64.classify (Binary64.standardDeviation (map Binary64.number samples'))
    = regular.
Proof. split_and!; by vm_compute. Qed.

(** On a bound that the double computation reaches without rounding they
    agree: the history [Scenario.sevenRecords]. *)
Lemma classify_on_bound_exact :
  let samples := [30; 30; 30; 26; 26; 26]%Z in
  Spec.variance (map inject_Z samples) == 4 ∧
  classify (standardDeviation_of (map inject_Z samples)) = regular ∧
  Binary64.classify (Binary64.standardDeviation (map Binary64.number samples))
    = regular.
Proof. split_and!; by vm_compute. Qed.

(** Off the bounds they agree, here on the interval sequences of the
    histories used below. *)
Lemma classify_off_bound :
  Forall (fun samples : list Z =>
            Spec.off_bounds (map inject_Z samples) ∧
            Binary64.classify (Binary64.standardDeviation (map Binary64.number samples))
              = classify (standardDeviation_of (map inject_Z samples)))
    [[28; 27; 27; 29; 28; 26; 28; 29]; [22; 25; 24; 26; 22; 27; 21; 25; 22; 35];
     [28; 29; 29]; [28; 28]; [28]; []]%Z.
Proof. apply (bool_decide_unpack _). vm_compute. exact I. Qed.

End PredictionFacts.

(** ** The cache helpers and the routes *)

Module CacheFacts.
Import PredictionService PredictionFacts.

Lemma get_succeeds now key redis : succeeds (cacheHelpers.get now key redis).1.
Proof.
  destruct redis as [c|]; [|done]. unfold cacheHelpers.get, Redis.get.
  destruct (Redis.attempt c) as [[] c']; cbn; [done|].
  destruct (Redis.lookup_live now key c') as [[[data|s] expiry]|]; cbn; try done.
  by destruct s.
Qed.

Lemma set_succeeds now key value ttl redis :
  succeeds (cacheHelpers.set now key value ttl redis).1.
Proof.
  destruct redis as [c|]; [|done]. unfold cacheHelpers.set, Redis.setex.
  by destruct (Redis.attempt c) as [[] c'].
Qed.

Lemma delete_succeeds now pattern redis :
  succeeds (cacheHelpers.delete now pattern redis).1.
Proof.
  destruct redis as [c|]; [|done]. unfold cacheHelpers.delete, Redis.keys, Redis.del.
  destruct (Redis.attempt c) as [[] c']; cbn; [done|].
  destruct (decide _); [|done].
  by destruct (Redis.attempt c') as [[] c''].
Qed.

(** No key of the prediction cache matches the pattern that [POST /]
    deletes. *)
Lemma glob_prediction_key (userId cachedUser : string) :
  Redis.glob ("prediction:" +:+ userId) (PredictionsRoute.cacheKey cachedUser) = false.
Proof. reflexivity. Qed.

Lemma lookup_foldr_delete (ks : list string) (m : gmap string Redis.Entry) (k : string) :
  k ∉ ks → foldr delete m ks !! k = m !! k.
Proof.
  induction ks as [|k' ks IH]; intros Hk; [done|].
  apply not_elem_of_cons in Hk as [Hne Hk]. simpl.
  rewrite lookup_delete_ne by done. by apply IH.
Qed.

Lemma attempt_store (c : Redis.Client) :
  Redis.store (Redis.attempt c).2 = Redis.store c.
Proof. unfold Redis.attempt. by destruct (Redis.faults c). Qed.

(** Deleting by a pattern leaves every key that the pattern does not match. *)
Lemma delete_keeps_unmatched now pattern (c : Redis.Client) (k : string) :
  Redis.glob pattern k = false →
  ∃ c', (cacheHelpers.delete now pattern (Some c)).2 = Some c' ∧
        Redis.store c' !! k = Redis.store c !! k.
Proof.
  intros Hk. unfold cacheHelpers.delete, Redis.keys, Redis.del.
  pose proof (attempt_store c) as Hs.
  destruct (Redis.attempt c) as [[] c1]; cbn in *;
    [exists c1; split; [done | by rewrite Hs]|].
  destruct (decide _); [|exists c1; split; [done | by rewrite Hs]].
  pose proof (attempt_store c1) as Hs1.
  destruct (Redis.attempt c1) as [[] c2]; cbn in *; eexists; (split; [done|]); cbn.
  - congruence.
  - rewrite lookup_foldr_delete; [congruence|].
    rewrite list_elem_of_In, filter_In. intros [_ Hm].
    apply andb_true_iff in Hm as [Hm _]. congruence.
Qed.

Lemma create_keeps_prediction_cache now userId body (w : World) (c : Redis.Client)
    (cachedUser : string) :
  redis w = Some c →
  ∃ c', redis (PeriodsRoute.create now userId body w).2 = Some c' ∧
        Redis.store c' !! PredictionsRoute.cacheKey cachedUser =
        Redis.store c !! PredictionsRoute.cacheKey cachedUser.
Proof.
  intros Hc. unfold PeriodsRoute.create. rewrite Hc.
  destruct (delete_keeps_unmatched now ("prediction:" +:+ userId) c
              (PredictionsRoute.cacheKey cachedUser) (glob_prediction_key _ _))
    as (c' & Hd & Hs).
  destruct (cacheHelpers.delete _ _ _) as [done redis']. cbn in Hd. subst redis'.
  exists c'. by destruct done.
Qed.

Lemma next_period_miss (now : Date) (userId : string) (d : Database)
    (r r' : option Redis.Client) :
  cacheHelpers.get now (PredictionsRoute.cacheKey userId) r = (Ok None, r') →
  ∃ response w',
    PredictionsRoute.next_period now userId {| db := d; redis := r |} = (Ok response, w') ∧
    PredictionsRoute.cached response = false.
Proof.
  intros Hget. unfold PredictionsRoute.next_period. cbn [redis db]. rewrite Hget.
  destruct (predictNextPeriod_returns now userId d) as (p & d' & ->).
  pose proof (set_succeeds now (PredictionsRoute.cacheKey userId)
                (PredictionsRoute.responseData p) 3600 r') as Hset.
  destruct (cacheHelpers.set _ _ _ _ _) as [[[]|e] r'']; [|done].
  by eexists _, _.
Qed.

End CacheFacts.

(** * The claims of the specification *)

Import PredictionService PredictionFacts CacheFacts.

(** Scenario A of the specification, as a check of the model: mean 24.9,
    weighted mean 24.49 (±0.01), variance 14.89 and regularity "regular". *)
Example scenario_A :
  calculateCycleLengths Scenario.scenarioA = [22; 25; 24; 26; 22; 27; 21; 25; 22; 35]%Z ∧
  length Scenario.scenarioA = 11%nat ∧
  avgCycleLength (calculateCycleStats Scenario.scenarioA) == 249 # 10 ∧
  (2448 # 100 <= calculateWeightedCycleLength Scenario.scenarioA)%Q ∧
  (calculateWeightedCycleLength Scenario.scenarioA <= 2450 # 100)%Q ∧
  radicand (standardDeviation (calculateCycleStats Scenario.scenarioA)) == 1489 # 100 ∧
  regularity (calculateCycleStats Scenario.scenarioA) = regular.
Proof. split_and!; by vm_compute. Qed.

(** Scenario D of the specification: the recency bonus decides for "heavy". *)
Example scenario_D :
  predictFlowIntensity
    (map (fun f => {| user_id := "u1"; start_date := 0; end_date := None;
                      flow_intensity := Some f |})
       [heavy; heavy; heavy; light; light; light]) = Some heavy.
Proof. reflexivity. Qed.

(** ** C1: a write to the history does not invalidate the cached prediction *)

(** C1 (fails on the code).  The periods route deletes the pattern
    [prediction:<user>], the prediction route caches under
    [predictions:<user>].  On a three-record history: the first read
    computes and caches (predicted start on day 84); a period is then
    created; the next read, inside the TTL, is served from the cache
    ([cached = true]) with the same stale payload, while a recomputation on
    the same database predicts day 120. *)
Theorem C1_create_keeps_stale_prediction :
  let w0 := Scenario.world Scenario.threeRecords in
  ∃ first w1 period w2 second w3 fresh w4,
    PredictionsRoute.next_period 1000%Z "u1" w0 = (Ok first, w1) ∧
    PredictionsRoute.cached first = false ∧
    PeriodsRoute.create 2000%Z "u1" Scenario.newPeriod w1 = (Ok period, w2) ∧
    PredictionsRoute.next_period 3000%Z "u1" w2 = (Ok second, w3) ∧
    PredictionsRoute.cached second = true ∧
    PredictionsRoute.data second = PredictionsRoute.data first ∧
    PredictionsRoute.next_period 3000%Z "u1" {| db := db w2; redis := None |}
      = (Ok fresh, w4) ∧
    next_period_predicted_start_date (PredictionsRoute.data first) = 84%Z ∧
    next_period_predicted_start_date (PredictionsRoute.data second) = 84%Z ∧
    next_period_predicted_start_date (PredictionsRoute.data fresh) = 120%Z.
Proof.
  eexists _, _, _, _, _, _, _, _.
  split; [vm_compute; reflexivity|]. split; [reflexivity|].
  split; [vm_compute; reflexivity|].
  split; [vm_compute; reflexivity|]. split; [reflexivity|]. split; [reflexivity|].
  split; [vm_compute; reflexivity|]. by vm_compute.
Qed.

(** ** C2: the step between the cycles of a multi-cycle forecast *)

(** C2 as stated fails where no rounding is involved: on a history with
    intervals [30; 30; 30; 26; 26; 26] the mean interval is 28 days, a whole
    number, and the weighted mean is 28.8, which rounds to 29; the second
    cycle starts 28 days after the first. *)
Lemma C2_counterexample :
  let periods := findCompletedPeriods "u1" Scenario.sevenRecords in
  ∃ m db' c1 c2,
    predictMultipleCycles 0%Z "u1" 2%Z Scenario.sevenRecords = Ok (m, db') ∧
    predictions m !! 0%nat = Some c1 ∧
    predictions m !! 1%nat = Some c2 ∧
    avgCycleLength (multiCycleStats m) == 28 ∧
    calculateWeightedCycleLength periods == 144 # 5 ∧
    Math_round (calculateWeightedCycleLength periods) = 29%Z ∧
    predictedStartDate (cycle c2) = (predictedStartDate (cycle c1) + 28 * oneDay)%Z ∧
    predictedStartDate (cycle c2) ≠
      addDays (predictedStartDate (cycle c1))
        (inject_Z (Math_round (calculateWeightedCycleLength periods))).
Proof.
  eexists _, _, _, _. split; [vm_compute; reflexivity|].
  split; [reflexivity|]. split; [reflexivity|].
  split_and!; [by vm_compute | by vm_compute | by vm_compute | by vm_compute |].
  vm_compute. discriminate.
Qed.

(** C2, amended.  The multi-cycle forecast returns [max 1 N] cycles, and
    every cycle after the first starts at the previous cycle's start moved,
    by [addDays], by one constant read once from cycle 1: the mean interval
    length [avgCycleLength] of its cycle statistics (on the statistical path
    the unweighted mean of the valid intervals).  When that mean is a whole
    number of days, the step is exactly that many days; what [addDays]
    makes of a mean with a fractional part is the [setDate] of the code and
    no part of the amended claim. *)
Theorem C2_multi_cycle_step (now : Date) (userId : string) (numberOfCycles : Z)
    (db : Database) :
  ∃ first m db',
    predictNextPeriod now userId db = Ok (first, db') ∧
    predictMultipleCycles now userId numberOfCycles db = Ok (m, db') ∧
    length (predictions m) = Z.to_nat (Z.max 1 numberOfCycles) ∧
    let step := avgCycleLength (cycleStats first) in
    let periods := findCompletedPeriods userId db in
    ((3 ≤ length periods)%nat →
       step == Spec.mean (map inject_Z (Spec.intervalSamples periods))) ∧
    ∀ k previous current,
      predictions m !! k = Some previous →
      predictions m !! S k = Some current →
      predictedStartDate (cycle current) =
        addDays (predictedStartDate (cycle previous)) step ∧
      ∀ days : Z, step == inject_Z days →
        predictedStartDate (cycle current) =
          (predictedStartDate (cycle previous) + days * oneDay)%Z.
Proof.
  destruct (predictMultipleCycles_spec now userId numberOfCycles db)
    as (first & m & db' & Hfirst & Hrun & _ & Hlen & _ & Hstep).
  exists first, m, db'. split; [done|]. split; [done|]. split; [done|].
  cbv zeta. split.
  - intros Hn.
    destruct (predictNextPeriod_statistical now userId db Hn)
      as (p0 & r & db'' & _ & Hr & Hstats & _).
    rewrite Hr in Hfirst. injection Hfirst as <- <-. rewrite Hstats. cbn.
    rewrite average_mean. unfold numbers.
    by rewrite calculateCycleLengths_samples by apply findCompletedPeriods_sorted.
  - intros k previous current Hp Hc. rewrite (Hstep k previous current Hp Hc). cbn.
    split; [done|]. intros days E. rewrite (addDays_comp _ _ _ E). apply addDays_whole.
Qed.

(** ** C3: the sample count of the cycle statistics *)

(** C3 as stated fails on the default path: with two records, one valid
    interval, the statistics report 2. *)
Lemma C3_counterexample :
  ∃ r db',
    predictNextPeriod 0%Z "u1" Scenario.twoRecords = Ok (r, db') ∧
    cyclesTracked (cycleStats r) ≠
      length (Spec.intervalSamples (findCompletedPeriods "u1" Scenario.twoRecords)).
Proof. eexists _, _. split; [vm_compute; reflexivity|]. vm_compute. discriminate. Qed.

(** C3, amended.  Every forecast returns; with three records or more the
    sample count is the number of interval samples that pass the [21, 45]
    filter, and with fewer than three it is the number of records. *)
Theorem C3_sample_count (now : Date) (userId : string) (db : Database) :
  ∃ r db',
    predictNextPeriod now userId db = Ok (r, db') ∧
    let periods := findCompletedPeriods userId db in
    ((3 ≤ length periods)%nat →
       cyclesTracked (cycleStats r) = length (Spec.intervalSamples periods)) ∧
    ((length periods < 3)%nat →
       cyclesTracked (cycleStats r) = length periods).
Proof.
  destruct (predictNextPeriod_returns now userId db) as (r & db' & Hr).
  exists r, db'. split; [done|]. cbv zeta. split; intros Hn.
  - destruct (predictNextPeriod_statistical now userId db Hn)
      as (p0 & r' & db'' & _ & Hr' & Hstats & _).
    rewrite Hr' in Hr. injection Hr as <- <-. rewrite Hstats. cbn.
    by rewrite calculateCycleLengths_samples by apply findCompletedPeriods_sorted.
  - rewrite predictNextPeriod_default in Hr by done. by injection Hr as <- <-.
Qed.

(** ** C4: the confidence score is within [0.40, 0.95] *)

(** C4.  For every history the single-cycle forecast (statistical or
    default) returns with a confidence in [0.40, 0.95], and so does every
    cycle of every multi-cycle forecast. *)
Theorem C4_confidence_range (now : Date) (userId : string) (numberOfCycles : Z)
    (db : Database) :
  (∃ r db',
     predictNextPeriod now userId db = Ok (r, db') ∧
     Spec.in_range (confidenceScore (prediction r))) ∧
  (∃ m db',
     predictMultipleCycles now userId numberOfCycles db = Ok (m, db') ∧
     Forall (fun c => Spec.in_range (confidenceScore (cycle c))) (predictions m)).
Proof.
  destruct (predictMultipleCycles_spec now userId numberOfCycles db)
    as (first & m & db' & Hfirst & Hrun & _ & Hlen & H0 & Hstep).
  pose proof (predictNextPeriod_confidence _ _ _ _ _ Hfirst) as Hc.
  split; [by exists first, db'|]. exists m, db'. split; [done|].
  apply Forall_lookup. intros k. induction k as [|k IH]; intros c Hk.
  - rewrite H0 in Hk. by injection Hk as <-.
  - destruct (lookup_lt_is_Some_2 (predictions m) k) as [previous Hp];
      [apply lookup_lt_Some in Hk; lia|].
    rewrite (Hstep k previous c Hp Hk). cbn. by apply decayed_confidence_range.
Qed.

(** ** C5: the confidence formula of the statistical path *)




(** ** C6: the tiers of the weighted mean *)

(** C6.  With [n] the number of valid interval samples, newest first: the
    weighted mean is the mean of all samples for [n ≤ 3]; for [4 ≤ n ≤ 6]
    it is 0.7 of the mean of the 3 most recent plus 0.3 of the mean of the
    rest; for [n ≥ 7] it is 0.5 of the mean of the 3 most recent plus 0.3 of
    the mean of the next 3 plus 0.2 of the mean of the rest. *)
Theorem C6_weighted_mean_tiers (periods : list Period) :
  let samples := numbers (calculateCycleLengths periods) in
  let n := length samples in
  let w := calculateWeightedCycleLength periods in
  ((n ≤ 3)%nat → w == Spec.mean samples) ∧
  ((4 ≤ n ≤ 6)%nat →
     w == Spec.mean (take 3 samples) * (7 # 10) + Spec.mean (drop 3 samples) * (3 # 10)) ∧
  ((7 ≤ n)%nat →
     w == Spec.mean (take 3 samples) * (5 # 10)
          + Spec.mean (take 3 (drop 3 samples)) * (3 # 10)
          + Spec.mean (drop 6 samples) * (2 # 10)).
Proof.
  intros samples n w. subst n w. unfold calculateWeightedCycleLength.
  fold samples. unfold slice, slice_from. rewrite drop_0, Nat.sub_0_r.
  split_and!; intros Hn.
  - rewrite decide_True by done.
    rewrite Nat.min_r by done. rewrite (take_ge samples) by done.
    destruct (decide (0 < length samples)%nat) as [Hp|Hp]; [apply average_mean|].
    assert (samples = []) as -> by (apply length_zero_iff_nil; lia). done.
  - rewrite decide_False by lia. rewrite decide_True by lia.
    rewrite Nat.min_l by lia.
    rewrite (take_ge (drop 3 samples)) by (rewrite length_drop; lia).
    rewrite !decide_True by (rewrite ?length_take, ?length_drop; lia).
    by rewrite !average_mean.
  - rewrite !decide_False by lia.
    rewrite !Nat.min_l by lia.
    rewrite !decide_True by (rewrite ?length_take, ?length_drop; lia).
    by rewrite !average_mean.
Qed.

(** ** C7: scenario B *)

(** C7 as stated fails: the weighted mean of the scenario is not 27.625. *)
Lemma C7_counterexample :
  calculateCycleLengths Scenario.scenarioB = [28; 27; 27; 29; 28; 26; 28; 29]%Z ∧
  ¬ calculateWeightedCycleLength Scenario.scenarioB == 27625 # 1000.
Proof. split; [reflexivity|]. vm_compute. discriminate. Qed.

(** C7, amended.  For a history whose valid intervals, newest first, are
    [28; 27; 27; 29; 28; 26; 28; 29]: the weighted mean is 83/3 (27.67), the
    mean 27.75, the standard deviation √(15/16), within 0.97 ± 0.01, the
    regularity "very_regular" with 8 samples; the confidence before the
    clamp is at least 0.98 (exactly 0.98 for the nine records that give
    these intervals) and 0.95 after it. *)
Theorem C7_scenario_B (periods : list Period) :
  calculateCycleLengths periods = [28; 27; 27; 29; 28; 26; 28; 29]%Z →
  let stats := calculateCycleStats periods in
  let raw :=
    finalConfidence (standardDeviation stats) (length periods) (avgCycleLength stats) in
  calculateWeightedCycleLength periods == 83 # 3 ∧
  avgCycleLength stats == 111 # 4 ∧
  radicand (standardDeviation stats) == 15 # 16 ∧
  (0.96 <= Surd_to_R (standardDeviation stats) <= 0.98)%R ∧
  regularity stats = very_regular ∧
  cyclesTracked stats = 8%nat ∧
  (98 # 100 <= raw)%Q ∧
  (length periods = 9%nat → raw == 98 # 100) ∧
  calculateConfidence (standardDeviation stats) (length periods) (avgCycleLength stats)
    == 95 # 100.
Proof.
  intros H stats raw.
  pose proof (calculateCycleLengths_length periods) as Hlen. rewrite H in Hlen.
  simpl in Hlen.
  assert (9 ≤ length periods)%nat as Hn by lia. clear Hlen.
  subst raw stats. unfold calculateWeightedCycleLength, calculateCycleStats.
  rewrite H. cbn [avgCycleLength standardDeviation regularity cyclesTracked].
  set (samples := numbers _).
  set (sd := standardDeviation_of samples). set (avg := average samples).
  assert (radicand sd == 15 # 16) as Hsd by (vm_compute; reflexivity).
  assert (classify sd = very_regular) as Hreg by (vm_compute; reflexivity).
  assert (finalConfidence sd (length periods) avg ==
          (92 # 100) + Spec.boost (length periods)) as Hraw.
  { unfold finalConfidence, Spec.boost, Math_min.
    replace (baseConfidence sd) with (92 # 100)%Q by (vm_compute; reflexivity).
    replace (bool_decide (26 <= avg)%Q && bool_decide (avg <= 32)%Q) with true
      by (vm_compute; reflexivity).
    ring. }
  assert (9 # 12 <= Qmin (inject_Z (Z.of_nat (length periods)) / 12) 1)%Q as Hboost.
  { apply Q.min_glb; [|discriminate]. apply Qle_shift_div_l; [reflexivity|].
    unfold Qle. simpl. lia. }
  assert (98 # 100 <= finalConfidence sd (length periods) avg)%Q as Hge.
  { rewrite Hraw. unfold Spec.boost. Lqa.lra. }
  split_and!.
  - vm_compute. reflexivity.
  - vm_compute. reflexivity.
  - done.
  - unfold Surd_to_R. rewrite (Qeq_eqR _ _ Hsd).
    replace 0.96%R with (sqrt (0.96 * 0.96)) by (apply sqrt_square; lra).
    apply sqrt_le_1_alt. unfold Q2R. simpl. lra.
  - unfold Surd_to_R. rewrite (Qeq_eqR _ _ Hsd).
    replace 0.98%R with (sqrt (0.98 * 0.98)) by (apply sqrt_square; lra).
    apply sqrt_le_1_alt. unfold Q2R. simpl. lra.
  - done.
  - done.
  - done.
  - intros E. rewrite Hraw, E. vm_compute. reflexivity.
  - unfold calculateConfidence, Math_max, Math_min.
    rewrite Q.min_l by (eapply Qle_trans; [|exact Hge]; discriminate).
    reflexivity.
Qed.

Lemma C7_witness :
  calculateWeightedCycleLength Scenario.scenarioB == 83 # 3 ∧
  (0.96 <= Surd_to_R (standardDeviation (calculateCycleStats Scenario.scenarioB)) <= 0.98)%R ∧
  calculateConfidence
    (standardDeviation (calculateCycleStats Scenario.scenarioB))
    (length Scenario.scenarioB)
    (avgCycleLength (calculateCycleStats Scenario.scenarioB)) == 95 # 100.
Proof.
  destruct (C7_scenario_B Scenario.scenarioB) as (Hw & _ & _ & Hsd & _ & _ & _ & _ & Hc);
    [reflexivity|]. exact (conj Hw (conj Hsd Hc)).
Defined.

(** ** C8: the average record duration of the cycle statistics *)

(** C8 (fails on the code).  On three records of 5, 5 and 15 days the
    statistics report the plain mean 25/3, where the filtered mean of the
    claim, which [calculateAveragePeriodLength] computes, is 5. *)
Theorem C8_stats_duration_unfiltered :
  ∃ r db',
    predictNextPeriod 0%Z "u1" Scenario.longRecord = Ok (r, db') ∧
    let periods := findCompletedPeriods "u1" Scenario.longRecord in
    map (fun p => (end_date p, start_date p)) periods =
      [(Some 60, 56); (Some 32, 28); (Some 14, 0)]%Z ∧
    avgPeriodLength (cycleStats r) == 25 # 3 ∧
    Spec.averageDuration periods == 5 ∧
    calculateAveragePeriodLength periods == 5.
Proof.
  eexists _, _. split; [vm_compute; reflexivity|].
  cbv zeta. split_and!; vm_compute; reflexivity.
Qed.

(** ** C9: the cache degrades to always-miss *)

(** C9.  No cache helper ever throws.  Without a client, [get] answers
    [null] and [set] and [delete] do nothing.  When the Redis command
    fails, [get] answers [null] and [set] and [delete] leave the keyspace as
    it was, also when [KEYS] goes through and [DEL] fails.  In both
    situations [GET /next-period] answers with a computed forecast. *)
Theorem C9_cache_degrades (now : Date) (key pattern userId : string)
    (value : ResponseData) (ttl : Z) (redis : option Redis.Client) (d : Database)
    (keyspace : gmap string Redis.Entry) (rest : list bool) :
  let client faults := Some {| Redis.store := keyspace; Redis.faults := faults |} in
  (succeeds (cacheHelpers.get now key redis).1 ∧
   succeeds (cacheHelpers.set now key value ttl redis).1 ∧
   succeeds (cacheHelpers.delete now pattern redis).1) ∧
  (cacheHelpers.get now key None = (Ok None, None) ∧
   cacheHelpers.set now key value ttl None = (Ok tt, None) ∧
   cacheHelpers.delete now pattern None = (Ok tt, None)) ∧
  (cacheHelpers.get now key (client (true :: rest)) = (Ok None, client rest) ∧
   cacheHelpers.set now key value ttl (client (true :: rest)) = (Ok tt, client rest) ∧
   cacheHelpers.delete now pattern (client (true :: rest)) = (Ok tt, client rest) ∧
   ∃ rest',
     cacheHelpers.delete now pattern (client (false :: true :: rest))
       = (Ok tt, client rest')) ∧
  (∃ response w',
     PredictionsRoute.next_period now userId {| db := d; redis := None |}
       = (Ok response, w') ∧
     PredictionsRoute.cached response = false) ∧
  (∃ response w',
     PredictionsRoute.next_period now userId {| db := d; redis := client (true :: rest) |}
       = (Ok response, w') ∧
     PredictionsRoute.cached response = false).
Proof.
  intros client. split_and!; try done.
  - apply get_succeeds.
  - apply set_succeeds.
  - apply delete_succeeds.
  - unfold cacheHelpers.delete, Redis.keys, Redis.del. cbn.
    destruct (decide _); cbn; by eexists.
  - by eapply next_period_miss.
  - by eapply next_period_miss.
Qed.

(** ** C10: three records or more and no valid interval *)

(** C10.  With at least three completed records and every difference of
    consecutive start dates outside [21, 45], the forecast returns on the
    statistical path (the statistics are the computed ones and the
    prediction is saved): mean cycle length 0, standard deviation 0,
    regularity "very_regular", sample count 0, and the predicted start is
    the start of the most recent record. *)
Theorem C10_no_valid_interval (now : Date) (userId : string) (db : Database) :
  let periods := findCompletedPeriods userId db in
  (3 ≤ length periods)%nat →
  Forall (fun d => ¬ Spec.valid d) (Spec.intervals periods) →
  ∃ p0 r db',
    periods !! 0%nat = Some p0 ∧
    predictNextPeriod now userId db = Ok (r, db') ∧
    cycleStats r = calculateCycleStats periods ∧
    predictions_table db' = predictions_table db ++ [(userId, prediction r)] ∧
    avgCycleLength (cycleStats r) == 0 ∧
    standardDeviation (cycleStats r) = Math_sqrt 0 ∧
    regularity (cycleStats r) = very_regular ∧
    cyclesTracked (cycleStats r) = 0%nat ∧
    predictedStartDate (prediction r) = new_Date (Some (start_date p0)).
Proof.
  intros periods Hn Hnone.
  destruct (predictNextPeriod_statistical now userId db Hn)
    as (p0 & r & db' & Hp0 & Hr & Hstats & Hstart & _ & _ & Hsaved).
  fold periods in Hp0, Hstats, Hstart.
  assert (calculateCycleLengths periods = []) as Hempty.
  { rewrite calculateCycleLengths_samples by apply findCompletedPeriods_sorted.
    by apply intervalSamples_none. }
  exists p0, r, db'. split_and!; try done.
  - rewrite Hstats. unfold calculateCycleStats. by rewrite Hempty.
  - rewrite Hstats. unfold calculateCycleStats. by rewrite Hempty.
  - rewrite Hstats. unfold calculateCycleStats. by rewrite Hempty.
  - rewrite Hstats. unfold calculateCycleStats. by rewrite Hempty.
  - assert (calculateWeightedCycleLength periods = 0%Q) as Hw
      by (unfold calculateWeightedCycleLength; by rewrite Hempty).
    rewrite Hstart, Hw. change (Math_round 0) with 0%Z. rewrite addDays_whole. lia.
Qed.

Lemma C10_witness :
  ∃ p0 r db',
    findCompletedPeriods "u1" Scenario.closeRecords !! 0%nat = Some p0 ∧
    predictNextPeriod 0%Z "u1" Scenario.closeRecords = Ok (r, db') ∧
    cycleStats r = calculateCycleStats (findCompletedPeriods "u1" Scenario.closeRecords) ∧
    predictions_table db' =
      predictions_table Scenario.closeRecords ++ [("u1", prediction r)] ∧
    avgCycleLength (cycleStats r) == 0 ∧
    standardDeviation (cycleStats r) = Math_sqrt 0 ∧
    regularity (cycleStats r) = very_regular ∧
    cyclesTracked (cycleStats r) = 0%nat ∧
    predictedStartDate (prediction r) = new_Date (Some (start_date p0)).
Proof.
  apply (C10_no_valid_interval 0%Z "u1" Scenario.closeRecords).
  - vm_compute. lia.
  - apply (bool_decide_unpack _). vm_compute. exact I.
Defined.

(** * Further properties of the code *)

Module CacheLemmas.
Import PredictionService PredictionFacts CacheFacts.

(** The matcher on the documented forms of a pattern. *)
Lemma glob_forms :
  Redis.glob "h?llo" "hello" = true ∧ Redis.glob "h?llo" "hllo" = false ∧
  Redis.glob "h*llo" "heeeello" = true ∧ Redis.glob "h*llo" "hllo" = true ∧
  Redis.glob "h[ae]llo" "hallo" = true ∧ Redis.glob "h[ae]llo" "hillo" = false ∧
  Redis.glob "h[^e]llo" "hallo" = true ∧ Redis.glob "h[^e]llo" "hello" = false ∧
  Redis.glob "h[a-b]llo" "hbllo" = true ∧ Redis.glob "h[a-b]llo" "hcllo" = false ∧
  Redis.glob "a[b]c" "abc" = true ∧ Redis.glob "a[b]c" "a[b]c" = false ∧
  Redis.glob "a\*c" "a*c" = true ∧ Redis.glob "a\*c" "abc" = false ∧
  Redis.glob "a\c" "ac" = true ∧ Redis.glob "a\c" "a\c" = false.
Proof. split_and!; reflexivity. Qed.

Lemma stringmatchlen_verbatim (nesting : nat) (s : string) :
  Redis.verbatim s = true → Redis.stringmatchlen nesting s Redis.Main s = true.
Proof.
  induction s as [|c s IH]; [done|]. cbn [Redis.verbatim].
  rewrite !andb_true_iff, !negb_true_iff. intros [[[Hstar Hclass] Hescape] Hs].
  cbn [Redis.stringmatchlen]. rewrite Hstar, Hclass, Hescape, Ascii.eqb_refl.
  assert (Redis.advance s s (Redis.stringmatchlen nesting s Redis.Main s) = true) as ->.
  { destruct s; [done|]. by apply IH. }
  by destruct (Ascii.eqb c "?").
Qed.

(** A key without [*], [[] and backslash matches the pattern that spells
    it. *)
Lemma glob_verbatim (s : string) : Redis.verbatim s = true → Redis.glob s s = true.
Proof.
  intros Hs. unfold Redis.glob. rewrite stringmatchlen_verbatim by done.
  apply orb_true_r.
Qed.

Lemma lookup_foldr_delete_in (ks : list string) (m : gmap string Redis.Entry) (k : string) :
  k ∈ ks → foldr delete m ks !! k = None.
Proof.
  induction ks as [|k' ks IH]; intros Hk; [by apply elem_of_nil in Hk|].
  simpl. destruct (decide (k' = k)) as [->|Hne]; [by rewrite lookup_delete_eq|].
  rewrite lookup_delete_ne by done. apply IH.
  apply elem_of_cons in Hk as [->|Hk]; done.
Qed.

Lemma set_healthy now key value ttl keyspace :
  cacheHelpers.set now key value ttl (Cache.healthy keyspace) =
  (Ok tt, Cache.healthy (<[key := Cache.entry now ttl value]> keyspace)).
Proof. reflexivity. Qed.

Lemma get_healthy now key keyspace :
  cacheHelpers.get now key (Cache.healthy keyspace) =
  (Ok (Cache.cached now key keyspace), Cache.healthy keyspace).
Proof.
  unfold cacheHelpers.get, Cache.healthy, Redis.get, Redis.attempt, Cache.cached.
  cbn [Redis.faults]. unfold Redis.lookup_live, Redis.live. cbn [Redis.store].
  destruct (keyspace !! key) as [[[data|[|a s]] expiry]|]; cbn; try done;
    by case_bool_decide.
Qed.

Lemma cached_live now key keyspace :
  is_Some (Cache.cached now key keyspace) →
  is_Some (Redis.lookup_live now key {| Redis.store := keyspace; Redis.faults := [] |}).
Proof.
  unfold Cache.cached, Redis.lookup_live, Redis.live. cbn.
  destruct (keyspace !! key) as [e|]; [|by intros [? ?]].
  case_bool_decide; [done | by intros [? ?]].
Qed.

(** On a healthy client [delete] removes the live keys that match and
    leaves every other key. *)
Lemma delete_healthy now pattern keyspace :
  ∃ keyspace',
    cacheHelpers.delete now pattern (Cache.healthy keyspace) = (Ok tt, Cache.healthy keyspace') ∧
    ∀ k,
      (Redis.glob pattern k = true → Cache.cached now k keyspace' = None) ∧
      (Redis.glob pattern k = false → keyspace' !! k = keyspace !! k).
Proof.
  unfold cacheHelpers.delete, Cache.healthy, Redis.keys, Redis.del, Redis.attempt.
  cbn [Redis.faults Redis.store].
  set (c0 := {| Redis.store := keyspace; Redis.faults := [] |}).
  set (ks := List.filter _ _).
  assert (∀ k, k ∈ ks ↔ Redis.glob pattern k = true ∧ is_Some (Redis.lookup_live now k c0)) as Hks.
  { intros k. subst ks. rewrite list_elem_of_In, filter_In, <- list_elem_of_In.
    rewrite andb_true_iff, bool_decide_eq_true. split; [tauto|].
    intros [Hg Hl]. split; [|done]. destruct Hl as [e He].
    unfold Redis.lookup_live in He. cbn in He.
    destruct (keyspace !! k) as [e'|] eqn:E; [|done].
    apply list_elem_of_fmap. exists (k, e'). split; [done|]. by apply elem_of_map_to_list. }
  destruct (decide (0 < length ks)%nat) as [Hpos|Hzero]; cbn [try_catch].
  - exists (foldr delete keyspace ks). split; [done|]. intros k. split; intros Hg.
    + destruct (decide (k ∈ ks)) as [Hin|Hout].
      * unfold Cache.cached. by rewrite lookup_foldr_delete_in.
      * destruct (Cache.cached now k (foldr delete keyspace ks)) as [d|] eqn:E; [|done].
        exfalso. apply Hout, Hks. split; [done|]. apply cached_live.
        unfold Cache.cached in *. rewrite lookup_foldr_delete in E by done. by rewrite E.
    + apply lookup_foldr_delete. intros Hin. apply Hks in Hin as [Hg' _]. congruence.
  - exists keyspace. split; [done|]. intros k. split; [|done]. intros Hg.
    destruct (Cache.cached now k keyspace) as [d|] eqn:E; [|done].
    assert (k ∈ ks) as Hin by (apply Hks; split; [done|]; apply cached_live; by rewrite E).
    destruct ks; [by apply elem_of_nil in Hin | simpl in Hzero; lia].
Qed.

(** A class in the pattern: [delete] with the pattern [a[b]c] removes the
    key [abc] and leaves the key [a[b]c]. *)
Lemma delete_class_pattern (value : ResponseData) :
  let keyspace : gmap string Redis.Entry :=
    <["abc" := Cache.entry 0%Z 3600 value]>
      (<["a[b]c" := Cache.entry 0%Z 3600 value]> ∅) in
  ∃ keyspace',
    cacheHelpers.delete 1000%Z "a[b]c" (Cache.healthy keyspace)
      = (Ok tt, Cache.healthy keyspace') ∧
    Cache.cached 1000%Z "abc" keyspace' = None ∧
    Cache.cached 1000%Z "a[b]c" keyspace' = Some value.
Proof.
  intros keyspace. destruct (delete_healthy 1000%Z "a[b]c" keyspace) as (keyspace' & Hd & Hk).
  exists keyspace'. split; [done|]. split.
  - by apply Hk.
  - destruct (Hk "a[b]c") as [_ Hsame]. unfold Cache.cached. rewrite Hsame by done.
    subst keyspace. rewrite lookup_insert_ne by done. by rewrite lookup_insert_eq.
Qed.

End CacheLemmas.
Import CacheLemmas.

(** X1.  On a healthy client, a value written with [set] is what [get]
    returns for that key until [ttl] seconds have passed, and [null] from then
    on; what [get] returns for any other key is unchanged. *)
Theorem X1_cache_set_get (now later : Date) (key : string) (value : ResponseData)
    (ttl : Z) (keyspace : gmap string Redis.Entry) :
  ∃ keyspace',
    cacheHelpers.set now key value ttl (Cache.healthy keyspace)
      = (Ok tt, Cache.healthy keyspace') ∧
    cacheHelpers.get later key (Cache.healthy keyspace')
      = (Ok (if decide (later < now + ttl * 1000)%Z then Some value else None),
         Cache.healthy keyspace') ∧
    ∀ other, other ≠ key →
      cacheHelpers.get later other (Cache.healthy keyspace')
        = (Ok (Cache.cached later other keyspace), Cache.healthy keyspace').
Proof.
  eexists. split; [apply set_healthy|]. split.
  - rewrite get_healthy. unfold Cache.cached. rewrite lookup_insert_eq. cbn.
    by destruct (decide _); [rewrite bool_decide_eq_true_2 | rewrite bool_decide_eq_false_2].
  - intros other Hne. rewrite get_healthy. unfold Cache.cached.
    by rewrite lookup_insert_ne.
Qed.

(** X2.  On a healthy client, after [delete pattern] every key that the
    pattern matches reads as a miss, and no key that it does not match is
    touched; the pattern is read as [KEYS] reads it, with [*], [?], classes
    and escapes. *)
Theorem X2_cache_delete (now : Date) (pattern : string)
    (keyspace : gmap string Redis.Entry) :
  ∃ keyspace',
    cacheHelpers.delete now pattern (Cache.healthy keyspace)
      = (Ok tt, Cache.healthy keyspace') ∧
    ∀ k,
      (Redis.glob pattern k = true →
         cacheHelpers.get now k (Cache.healthy keyspace') = (Ok None, Cache.healthy keyspace')) ∧
      (Redis.glob pattern k = false → keyspace' !! k = keyspace !! k).
Proof.
  destruct (delete_healthy now pattern keyspace) as (keyspace' & Hd & Hk).
  exists keyspace'. split; [done|]. intros k. destruct (Hk k) as [Hm Hu].
  split; [|done]. intros Hg. rewrite get_healthy. by rewrite Hm.
Qed.

(** X3.  Deleting by a key's own name invalidates it when the key holds
    no [*], no [[] and no backslash: after [set], then [delete] with the
    same string, a later [get] is a miss.  (A key such as [a[b]c] is not
    matched by the pattern that spells it.) *)
Theorem X3_cache_delete_own_key (now later later' : Date) (key : string)
    (value : ResponseData) (ttl : Z) (keyspace : gmap string Redis.Entry) :
  Redis.verbatim key = true →
  (later ≤ later')%Z →
  ∃ written deleted,
    cacheHelpers.set now key value ttl (Cache.healthy keyspace)
      = (Ok tt, Cache.healthy written) ∧
    cacheHelpers.delete later key (Cache.healthy written)
      = (Ok tt, Cache.healthy deleted) ∧
    cacheHelpers.get later' key (Cache.healthy deleted)
      = (Ok None, Cache.healthy deleted).
Proof.
  intros Hkey Hle. eexists.
  destruct (delete_healthy later key (<[key := Cache.entry now ttl value]> keyspace))
    as (deleted & Hd & Hk).
  exists deleted. split; [apply set_healthy|]. split; [done|].
  rewrite get_healthy. destruct (Hk key) as [Hm _]. specialize (Hm (glob_verbatim key Hkey)).
  unfold Cache.cached in *. destruct (deleted !! key) as [e|]; [|done].
  case_bool_decide as Hl; [|by rewrite bool_decide_eq_false_2 by lia].
  destruct (Redis.payload e); [done|]. by case_bool_decide.
Qed.

Lemma X3_cache_delete_own_key_witness :
  ∃ written deleted,
    cacheHelpers.set 0%Z "predictions:u1"
        (PredictionsRoute.responseData
           (useDefaultPrediction 0%Z "u1" [] Scenario.twoRecords)) 3600
        (Cache.healthy ∅)
      = (Ok tt, Cache.healthy written) ∧
    cacheHelpers.delete 1000%Z "predictions:u1" (Cache.healthy written)
      = (Ok tt, Cache.healthy deleted) ∧
    cacheHelpers.get 2000%Z "predictions:u1" (Cache.healthy deleted)
      = (Ok None, Cache.healthy deleted).
Proof. apply (X3_cache_delete_own_key 0%Z 1000%Z 2000%Z); [reflexivity | lia]. Defined.

Module RouteLemmas.
Import PredictionService PredictionFacts CacheFacts.

Lemma next_period_healthy (now : Date) (userId : string) (d : Database)
    (keyspace : gmap string Redis.Entry) :
  PredictionsRoute.next_period now userId {| db := d; redis := Cache.healthy keyspace |} =
  match Cache.cached now (PredictionsRoute.cacheKey userId) keyspace with
  | Some data =>
      (Ok {| PredictionsRoute.success := true; PredictionsRoute.data := data;
             PredictionsRoute.cached := true |},
       {| db := d; redis := Cache.healthy keyspace |})
  | None =>
      match predictNextPeriod now userId d with
      | Ok (p, d') =>
          (Ok {| PredictionsRoute.success := true;
                 PredictionsRoute.data := PredictionsRoute.responseData p;
                 PredictionsRoute.cached := false |},
           {| db := d';
              redis := Cache.healthy
                (<[PredictionsRoute.cacheKey userId :=
                     Cache.entry now 3600 (PredictionsRoute.responseData p)]> keyspace) |})
      | Throw error => (Throw error, {| db := d; redis := Cache.healthy keyspace |})
      end
  end.
Proof.
  unfold PredictionsRoute.next_period. cbn [redis db]. rewrite get_healthy.
  destruct (Cache.cached _ _ _); [done|].
  destruct (predictNextPeriod now userId d) as [[p d']|e]; [|done].
  by rewrite set_healthy.
Qed.

End RouteLemmas.
Import RouteLemmas.

(** X4.  Cache-aside, the hit: when [GET /next-period] has missed and
    computed, a second read less than 3600 s later answers the same payload
    with [cached = true] and leaves the database and the cache as they were. *)
Theorem X4_read_within_ttl (t1 t2 : Date) (userId : string) (d : Database)
    (keyspace : gmap string Redis.Entry) :
  Cache.cached t1 (PredictionsRoute.cacheKey userId) keyspace = None →
  (t2 < t1 + 3600 * 1000)%Z →
  ∃ first w1,
    PredictionsRoute.next_period t1 userId {| db := d; redis := Cache.healthy keyspace |}
      = (Ok first, w1) ∧
    PredictionsRoute.cached first = false ∧
    PredictionsRoute.next_period t2 userId w1 =
      (Ok {| PredictionsRoute.success := true;
             PredictionsRoute.data := PredictionsRoute.data first;
             PredictionsRoute.cached := true |}, w1).
Proof.
  intros Hmiss Ht. rewrite next_period_healthy, Hmiss.
  destruct (predictNextPeriod_returns t1 userId d) as (p & d' & ->).
  eexists _, _. split; [done|]. split; [done|].
  rewrite next_period_healthy. unfold Cache.cached. rewrite lookup_insert_eq. cbn.
  by rewrite bool_decide_eq_true_2.
Qed.

Lemma X4_read_within_ttl_witness :
  ∃ first w1,
    PredictionsRoute.next_period 1000%Z "u1" (Scenario.world Scenario.threeRecords)
      = (Ok first, w1) ∧
    PredictionsRoute.cached first = false ∧
    PredictionsRoute.next_period 3000%Z "u1" w1 =
      (Ok {| PredictionsRoute.success := true;
             PredictionsRoute.data := PredictionsRoute.data first;
             PredictionsRoute.cached := true |}, w1).
Proof.
  apply (X4_read_within_ttl 1000%Z 3000%Z "u1" Scenario.threeRecords ∅).
  - reflexivity.
  - lia.
Defined.

(** X5.  Cache-aside, the expiry: 3600 s or more after the read that
    populated the cache, the next read recomputes the forecast
    ([cached = false]). *)
Theorem X5_read_after_ttl (t1 t2 : Date) (userId : string) (d : Database)
    (keyspace : gmap string Redis.Entry) :
  Cache.cached t1 (PredictionsRoute.cacheKey userId) keyspace = None →
  (t1 + 3600 * 1000 ≤ t2)%Z →
  ∃ first w1 p d' w2,
    PredictionsRoute.next_period t1 userId {| db := d; redis := Cache.healthy keyspace |}
      = (Ok first, w1) ∧
    predictNextPeriod t2 userId (db w1) = Ok (p, d') ∧
    PredictionsRoute.next_period t2 userId w1 =
      (Ok {| PredictionsRoute.success := true;
             PredictionsRoute.data := PredictionsRoute.responseData p;
             PredictionsRoute.cached := false |}, w2) ∧
    db w2 = d'.
Proof.
  intros Hmiss Ht. rewrite next_period_healthy, Hmiss.
  destruct (predictNextPeriod_returns t1 userId d) as (p1 & d1 & ->).
  destruct (predictNextPeriod_returns t2 userId d1) as (p & d' & Hp).
  eexists _, _, p, d', _. split; [done|]. cbn [db]. split; [done|].
  rewrite next_period_healthy. unfold Cache.cached. rewrite lookup_insert_eq. cbn.
  rewrite bool_decide_eq_false_2 by lia. rewrite Hp. done.
Qed.

Lemma X5_read_after_ttl_witness :
  ∃ first w1 p d' w2,
    PredictionsRoute.next_period 1000%Z "u1" (Scenario.world Scenario.threeRecords)
      = (Ok first, w1) ∧
    predictNextPeriod 3601000%Z "u1" (db w1) = Ok (p, d') ∧
    PredictionsRoute.next_period 3601000%Z "u1" w1 =
      (Ok {| PredictionsRoute.success := true;
             PredictionsRoute.data := PredictionsRoute.responseData p;
             PredictionsRoute.cached := false |}, w2) ∧
    db w2 = d'.
Proof.
  apply (X5_read_after_ttl 1000%Z 3601000%Z "u1" Scenario.threeRecords ∅).
  - reflexivity.
  - lia.
Defined.

Module BoundLemmas.
Import PredictionService PredictionFacts CacheFacts.

Lemma sum_between (lo hi : Q) (l : list Q) :
  Forall (Range.between lo hi) l →
  (inject_Z (Z.of_nat (length l)) * lo <= Spec.sum l)%Q ∧
  (Spec.sum l <= inject_Z (Z.of_nat (length l)) * hi)%Q.
Proof.
  induction 1 as [|x l [Hlo Hhi] Hl [IHlo IHhi]];
    [split; change (inject_Z (Z.of_nat (length (@nil Q)))) with 0%Q;
     rewrite Qmult_0_l; apply Qle_refl|].
  cbn [length Spec.sum foldr]. rewrite Nat2Z.inj_succ, <- Z.add_1_r, inject_Z_plus.
  fold (Spec.sum l). split.
  - setoid_replace ((inject_Z (Z.of_nat (length l)) + inject_Z 1) * lo)%Q
      with (lo + inject_Z (Z.of_nat (length l)) * lo)%Q using relation Qeq by ring.
    by apply Qplus_le_compat.
  - setoid_replace ((inject_Z (Z.of_nat (length l)) + inject_Z 1) * hi)%Q
      with (hi + inject_Z (Z.of_nat (length l)) * hi)%Q using relation Qeq by ring.
    by apply Qplus_le_compat.
Qed.

Lemma count_positive {A} (l : list A) : l ≠ [] → (0 < inject_Z (Z.of_nat (length l)))%Q.
Proof.
  intros Hne. change 0%Q with (inject_Z 0). rewrite <- Zlt_Qlt.
  destruct l; [done | simpl; lia].
Qed.

Lemma mean_between (lo hi : Q) (l : list Q) :
  l ≠ [] → Forall (Range.between lo hi) l → Range.between lo hi (Spec.mean l).
Proof.
  intros Hne Hl. destruct (sum_between lo hi l Hl) as [Hlo Hhi].
  pose proof (count_positive l Hne) as Hn. unfold Spec.mean. split.
  - apply Qle_shift_div_l; [done|]. by rewrite Qmult_comm.
  - apply Qle_shift_div_r; [done|]. by rewrite Qmult_comm.
Qed.

Lemma average_between (lo hi : Q) (l : list Q) :
  l ≠ [] → Forall (Range.between lo hi) l → Range.between lo hi (average l).
Proof.
  intros Hne Hl. destruct (mean_between lo hi l Hne Hl) as [Hlo Hhi].
  unfold Range.between. by rewrite average_mean.
Qed.

Lemma Math_round_between (lo hi : Z) (x : Q) :
  Range.between (inject_Z lo) (inject_Z hi) x → (lo ≤ Math_round x ≤ hi)%Z.
Proof.
  intros [Hlo Hhi]. split.
  - rewrite <- (Math_round_inject_Z lo). unfold Math_round.
    apply Qfloor_resp_le. by apply Qplus_le_l.
  - rewrite <- (Math_round_inject_Z hi). unfold Math_round.
    apply Qfloor_resp_le. by apply Qplus_le_l.
Qed.

Lemma numbers_between (lo hi : Z) (l : list Z) :
  Forall (fun d => lo ≤ d ≤ hi)%Z l →
  Forall (Range.between (inject_Z lo) (inject_Z hi)) (numbers l).
Proof.
  intros H. apply Forall_fmap. eapply Forall_impl; [exact H|].
  intros d [Hlo Hhi]. split; cbn; by rewrite <- Zle_Qle.
Qed.

(** The weighted cycle length lies wherever all the samples lie. *)
Lemma weighted_between (lo hi : Q) (periods : list Period) :
  calculateCycleLengths periods ≠ [] →
  Forall (Range.between lo hi) (numbers (calculateCycleLengths periods)) →
  Range.between lo hi (calculateWeightedCycleLength periods).
Proof.
  intros Hne Hall. unfold calculateWeightedCycleLength.
  set (samples := numbers (calculateCycleLengths periods)) in *.
  assert (0 < length samples)%nat as Hn.
  { subst samples. unfold numbers. rewrite length_map.
    destruct (calculateCycleLengths periods); [done | simpl; lia]. }
  unfold slice, slice_from. rewrite drop_0, Nat.sub_0_r.
  set (recent3 := take _ samples). set (middle3 := take _ (drop 3 samples)).
  set (older := drop 6 samples).
  assert (∀ l, Forall (Range.between lo hi) l → (0 < length l)%nat → Range.between lo hi (average l))
    as Havg.
  { intros l Hl Hpos. apply average_between; [|done]. intros ->. simpl in Hpos. lia. }
  assert (Range.between lo hi (average recent3)) as Hr.
  { apply Havg; [by apply Forall_take|]. subst recent3. rewrite length_take. lia. }
  rewrite (decide_True (P := (0 < length recent3)%nat))
    by (subst recent3; rewrite length_take; lia).
  set (recentAvg := average recent3) in *.
  set (middleAvg := if decide (0 < length middle3)%nat then average middle3 else recentAvg).
  assert (Range.between lo hi middleAvg) as Hm.
  { subst middleAvg. destruct (decide (0 < length middle3)%nat); [|done].
    apply Havg; [by apply Forall_take, Forall_drop | done]. }
  set (olderAvg := if decide (0 < length older)%nat then average older else middleAvg).
  assert (Range.between lo hi olderAvg) as Ho.
  { subst olderAvg. destruct (decide (0 < length older)%nat); [|done].
    apply Havg; [by apply Forall_drop | done]. }
  clearbody recentAvg middleAvg olderAvg. unfold Range.between in *.
  destruct Hr, Hm, Ho.
  destruct (decide (length samples ≤ 3)%nat); [done|].
  destruct (decide (length samples ≤ 6)%nat); split; Lqa.lra.
Qed.

Lemma calculateAveragePeriodLength_between (periods : list Period) :
  Range.between 2 10 (calculateAveragePeriodLength periods).
Proof.
  unfold calculateAveragePeriodLength.
  set (lengths := List.filter _ _).
  destruct (decide (0 < length lengths)%nat) as [Hpos|Hzero]; [|split; discriminate].
  apply (average_between (inject_Z 2) (inject_Z 10)).
  - unfold numbers. destruct lengths; [simpl in Hpos; lia | done].
  - apply numbers_between, Forall_forall. intros d Hd.
    subst lengths. apply list_elem_of_In, filter_In in Hd as [_ Hd].
    apply andb_true_iff in Hd as [H2 H10].
    apply bool_decide_eq_true in H2, H10. lia.
Qed.

End BoundLemmas.
Import BoundLemmas.

Module WindowLemmas.
Import PredictionService PredictionFacts CacheFacts.

Lemma window_offsets (start : Date) :
  addDays (addDays start (- 14)) (- 5) = (start - 19 * oneDay)%Z ∧
  addDays (addDays start (- 14)) 1 = (start - 13 * oneDay)%Z.
Proof.
  unfold addDays.
  change (Qfloor (- 14)) with (-14)%Z. change (Qfloor (- 5)) with (-5)%Z.
  change (Qfloor 1) with 1%Z. lia.
Qed.

Lemma predictNextPeriod_window now userId db r db' :
  predictNextPeriod now userId db = Ok (r, db') → Range.window (prediction r).
Proof.
  unfold predictNextPeriod. destruct (decide _) as [Hn|Hn].
  - intros [= <- <-]. apply window_offsets.
  - destruct (findCompletedPeriods userId db) as [|p0 rest]; [simpl in Hn; lia|].
    cbn. intros [= <- <-]. apply window_offsets.
Qed.

End WindowLemmas.
Import WindowLemmas.

(** X17.  In every cycle of every forecast the fertile window runs from 19
    days to 13 days before the predicted start. *)
Theorem X17_fertile_window (now : Date) (userId : string) (numberOfCycles : Z)
    (db : Database) :
  ∃ m db',
    predictMultipleCycles now userId numberOfCycles db = Ok (m, db') ∧
    Forall
      (fun c =>
         ovulationStart (cycle c) = (predictedStartDate (cycle c) - 19 * oneDay)%Z ∧
         ovulationEnd (cycle c) = (predictedStartDate (cycle c) - 13 * oneDay)%Z)
      (predictions m).
Proof.
  destruct (predictMultipleCycles_spec now userId numberOfCycles db)
    as (first & m & db' & Hfirst & Hrun & _ & _ & H0 & Hstep).
  exists m, db'. split; [done|]. apply Forall_lookup. intros [|k] c Hk.
  - rewrite H0 in Hk. injection Hk as <-. by apply (predictNextPeriod_window _ _ _ _ _ Hfirst).
  - destruct (lookup_lt_is_Some_2 (predictions m) k) as [previous Hp];
      [apply lookup_lt_Some in Hk; lia|].
    rewrite (Hstep k previous c Hp Hk). apply window_offsets.
Qed.



(** X15.  On the statistical path with at least one valid interval, the
    predicted start is between 21 and 45 days after the newest record's
    start. *)
Theorem X15_predicted_start_range (now : Date) (userId : string) (db : Database) :
  let periods := findCompletedPeriods userId db in
  (3 ≤ length periods)%nat →
  Spec.intervalSamples periods ≠ [] →
  ∃ p0 r db',
    periods !! 0%nat = Some p0 ∧
    predictNextPeriod now userId db = Ok (r, db') ∧
    ((start_date p0 + 21) * oneDay ≤ predictedStartDate (prediction r)
     ≤ (start_date p0 + 45) * oneDay)%Z.
Proof.
  intros periods Hn Hsamples.
  destruct (predictNextPeriod_statistical now userId db Hn)
    as (p0 & r & db' & Hp0 & Hr & _ & Hstart & _).
  exists p0, r, db'. split; [done|]. split; [done|]. fold periods in Hstart.
  rewrite Hstart, addDays_whole. cbn [new_Date].
  assert (21 ≤ Math_round (calculateWeightedCycleLength periods) ≤ 45)%Z as Hround.
  { apply Math_round_between, weighted_between.
    - by rewrite calculateCycleLengths_samples by apply findCompletedPeriods_sorted.
    - apply numbers_between, calculateCycleLengths_valid. }
  unfold oneDay. lia.
Qed.

Lemma X15_predicted_start_range_witness :
  ∃ p0 r db',
    findCompletedPeriods "u1" Scenario.threeRecords !! 0%nat = Some p0 ∧
    predictNextPeriod 0%Z "u1" Scenario.threeRecords = Ok (r, db') ∧
    ((start_date p0 + 21) * oneDay ≤ predictedStartDate (prediction r)
     ≤ (start_date p0 + 45) * oneDay)%Z.
Proof.
  apply (X15_predicted_start_range 0%Z "u1" Scenario.threeRecords).
  - vm_compute. lia.
  - vm_compute. discriminate.
Defined.

(** X16.  On the statistical path the predicted period lasts from 2 to 10
    days: its end is 1 to 9 days after its start. *)
Theorem X16_predicted_end_range (now : Date) (userId : string) (db : Database) :
  (3 ≤ length (findCompletedPeriods userId db))%nat →
  ∃ r db',
    predictNextPeriod now userId db = Ok (r, db') ∧
    (predictedStartDate (prediction r) + 1 * oneDay ≤ predictedEndDate (prediction r)
     ≤ predictedStartDate (prediction r) + 9 * oneDay)%Z.
Proof.
  intros Hn.
  destruct (predictNextPeriod_statistical now userId db Hn)
    as (p0 & r & db' & _ & Hr & _ & _ & Hend & _).
  exists r, db'. split; [done|]. rewrite Hend, addDays_whole.
  pose proof (Math_round_between 2 10 _
    (calculateAveragePeriodLength_between (findCompletedPeriods userId db))) as Hround.
  unfold oneDay. lia.
Qed.

Lemma X16_predicted_end_range_witness :
  ∃ r db',
    predictNextPeriod 0%Z "u1" Scenario.longRecord = Ok (r, db') ∧
    (predictedStartDate (prediction r) + 1 * oneDay ≤ predictedEndDate (prediction r)
     ≤ predictedStartDate (prediction r) + 9 * oneDay)%Z.
Proof. apply (X16_predicted_end_range 0%Z "u1" Scenario.longRecord). vm_compute. lia. Defined.

Module DeviationLemmas.
Import PredictionService PredictionFacts CacheFacts.

Lemma sum_zero (l : list Q) :
  Forall (fun x => 0 <= x)%Q l → Spec.sum l == 0 → Forall (fun x => x == 0) l.
Proof.
  induction 1 as [|x l Hx Hl IH]; intros Hs; [done|].
  cbn [Spec.sum foldr] in Hs. fold (Spec.sum l) in Hs.
  pose proof (sum_nonneg l Hl) as Hnn.
  constructor; [Lqa.lra|]. apply IH. Lqa.lra.
Qed.

Lemma sum_all_zero (f : Q → Q) (l : list Q) :
  Forall (fun x => f x == 0) l → Spec.sum (map f l) == 0.
Proof.
  induction 1 as [|x l Hx Hl IH]; [done|].
  cbn [map Spec.sum foldr]. fold (Spec.sum (map f l)). rewrite Hx, IH. reflexivity.
Qed.

Lemma sum_constant (a : Q) (l : list Q) :
  Forall (fun x => x == a) l → Spec.sum l == inject_Z (Z.of_nat (length l)) * a.
Proof.
  induction 1 as [|x l Hx Hl IH]; [cbn; ring|].
  cbn [length Spec.sum foldr]. fold (Spec.sum l).
  rewrite Nat2Z.inj_succ, <- Z.add_1_r, inject_Z_plus, Hx, IH. ring.
Qed.

Lemma mean_zero (l : list Q) : l ≠ [] → Spec.mean l == 0 → Spec.sum l == 0.
Proof.
  intros Hne Hm. pose proof (count_positive l Hne) as Hn. unfold Spec.mean in Hm.
  setoid_replace (Spec.sum l)
    with (Spec.sum l / inject_Z (Z.of_nat (length l)) * inject_Z (Z.of_nat (length l)))%Q
    using relation Qeq.
  - rewrite Hm. ring.
  - field. intros E. rewrite E in Hn. by apply Qlt_irrefl in Hn.
Qed.

Lemma square_zero (x : Q) : x ^ 2 == 0 → x == 0.
Proof. cbn. intros H. by apply Qmult_integral in H as [H|H]. Qed.

Lemma variance_zero (l : list Q) :
  Spec.variance l == 0 ↔ ∀ x y, x ∈ l → y ∈ l → x == y.
Proof.
  destruct l as [|a l'] eqn:El; [split; [by intros _ x y Hx; apply elem_of_nil in Hx | done]|].
  rewrite <- El. assert (l ≠ []) as Hne by (by rewrite El). clear El.
  unfold Spec.variance. set (m := Spec.mean l). split.
  - intros Hv.
    assert (Forall (fun x => x == m) l) as Hall.
    { apply mean_zero in Hv; [|by destruct l].
      apply sum_zero in Hv.
      - apply Forall_fmap in Hv. eapply Forall_impl; [exact Hv|]. cbn.
        intros x Hx. apply square_zero in Hx. Lqa.lra.
      - apply Forall_fmap, Forall_forall. intros x _. apply Qsqr_nonneg. }
    intros x y Hx Hy. rewrite Forall_forall in Hall.
    by rewrite (Hall x Hx), (Hall y Hy).
  - intros Heq.
    destruct l as [|b l'']; [done|].
    assert (Forall (fun x => x == b) (b :: l'')) as Hall.
    { apply Forall_forall. intros x Hx. apply Heq; [done | by left]. }
    assert (m == b) as Hm.
    { subst m. unfold Spec.mean. rewrite (sum_constant b _ Hall).
      pose proof (count_positive (b :: l'') Hne) as Hn.
      field. intros E. rewrite E in Hn. by apply Qlt_irrefl in Hn. }
    unfold Spec.mean. rewrite sum_all_zero; [reflexivity|].
    eapply Forall_impl; [exact Hall|]. cbn. intros x Hx. rewrite Hx, Hm. ring.
Qed.

End DeviationLemmas.
Import DeviationLemmas.

(** X13.  The value under the square root of [standardDeviation] is never
    negative, and is 0 exactly when all samples are equal. *)
Theorem X13_standardDeviation_zero (samples : list Q) :
  (0 <= radicand (standardDeviation_of samples))%Q ∧
  (radicand (standardDeviation_of samples) == 0 ↔
   ∀ x y, x ∈ samples → y ∈ samples → x == y).
Proof.
  rewrite standardDeviation_variance. split; [apply variance_nonneg | apply variance_zero].
Qed.

Module ConfidenceLemmas.
Import PredictionService PredictionFacts CacheFacts.

Lemma clamp_mono (x y : Q) :
  (x <= y)%Q →
  (Math_max (40 # 100) (Math_min (95 # 100) x) <= Math_max (40 # 100) (Math_min (95 # 100) y))%Q.
Proof.
  intros H. unfold Math_max, Math_min.
  by apply Q.max_le_compat_l, Q.min_le_compat_l.
Qed.

Lemma boost_mono (d d' : nat) :
  (d ≤ d')%nat →
  (Math_min (inject_Z (Z.of_nat d) / 12) 1 * (8 # 100)
   <= Math_min (inject_Z (Z.of_nat d') / 12) 1 * (8 # 100))%Q.
Proof.
  intros H. apply Qmult_le_compat_r; [|discriminate].
  unfold Math_min. apply Q.min_le_compat_r.
  apply Qmult_le_compat_r; [|discriminate]. rewrite <- Zle_Qle. lia.
Qed.

Lemma boost_full (d : nat) :
  (12 ≤ d)%nat → Math_min (inject_Z (Z.of_nat d) / 12) 1 == 1.
Proof.
  intros H. unfold Math_min. apply Q.min_r.
  apply Qle_shift_div_l; [reflexivity|]. rewrite Qmult_1_l.
  change 12%Q with (inject_Z 12). rewrite <- Zle_Qle. lia.
Qed.

Lemma Surd_ltb_mono (s s' : Surd) (c : Q) :
  (radicand s <= radicand s')%Q → Surd_ltb s' c = true → Surd_ltb s c = true.
Proof.
  unfold Surd_ltb. rewrite !bool_decide_eq_true. intros H H'.
  by eapply Qle_lt_trans.
Qed.

Lemma baseConfidence_antitone (s s' : Surd) :
  (radicand s <= radicand s')%Q → (baseConfidence s' <= baseConfidence s)%Q.
Proof.
  intros H. unfold baseConfidence.
  pose proof (Surd_ltb_mono s s' 2 H) as H2. pose proof (Surd_ltb_mono s s' 4 H) as H4.
  pose proof (Surd_ltb_mono s s' 7 H) as H7.
  destruct (Surd_ltb s' 2), (Surd_ltb s' 4), (Surd_ltb s' 7);
    rewrite ?(H2 eq_refl), ?(H4 eq_refl), ?(H7 eq_refl);
    repeat match goal with
           | |- context [Surd_ltb s ?c] => destruct (Surd_ltb s c)
           end; discriminate.
Qed.

Lemma Math_pow_succ (q : Q) (i : nat) : Math_pow q (S i) == Math_pow q i * q.
Proof.
  unfold Math_pow. rewrite Nat2Z.inj_succ, <- Z.add_1_r.
  destruct (Qeq_dec q 0) as [E|E].
  - rewrite E. rewrite Qpower_0 by lia. ring.
  - rewrite Qpower_plus by done. reflexivity.
Qed.

End ConfidenceLemmas.
Import ConfidenceLemmas.

(** X18.  More data points never lower the confidence, and from twelve on
    they no longer change it. *)
Theorem X18_confidence_grows_with_data (stdDev : Surd) (dataPoints dataPoints' : nat)
    (avgCycleLength : Q) :
  (dataPoints ≤ dataPoints')%nat →
  (calculateConfidence stdDev dataPoints avgCycleLength
   <= calculateConfidence stdDev dataPoints' avgCycleLength)%Q ∧
  ((12 ≤ dataPoints)%nat →
   calculateConfidence stdDev dataPoints avgCycleLength
   == calculateConfidence stdDev dataPoints' avgCycleLength).
Proof.
  intros H. unfold calculateConfidence, finalConfidence. split.
  - apply clamp_mono. pose proof (boost_mono _ _ H). Lqa.lra.
  - intros H12. rewrite (boost_full dataPoints), (boost_full dataPoints') by lia.
    reflexivity.
Qed.

Lemma X18_confidence_grows_with_data_witness :
  (calculateConfidence (Math_sqrt 9) 3 28
   <= calculateConfidence (Math_sqrt 9) 9 28)%Q ∧
  ((12 ≤ 3)%nat →
   calculateConfidence (Math_sqrt 9) 3 28 == calculateConfidence (Math_sqrt 9) 9 28).
Proof. apply (X18_confidence_grows_with_data (Math_sqrt 9) 3 9 28). lia. Defined.

(** X19.  A larger standard deviation never raises the confidence. *)
Theorem X19_confidence_falls_with_variability (stdDev stdDev' : Surd) (dataPoints : nat)
    (avgCycleLength : Q) :
  (radicand stdDev <= radicand stdDev')%Q →
  (calculateConfidence stdDev' dataPoints avgCycleLength
   <= calculateConfidence stdDev dataPoints avgCycleLength)%Q.
Proof.
  intros H. unfold calculateConfidence, finalConfidence.
  apply clamp_mono. pose proof (baseConfidence_antitone _ _ H). Lqa.lra.
Qed.

Lemma X19_confidence_falls_with_variability_witness :
  (calculateConfidence (Math_sqrt 25) 6 28 <= calculateConfidence (Math_sqrt 1) 6 28)%Q.
Proof.
  apply (X19_confidence_falls_with_variability (Math_sqrt 1) (Math_sqrt 25) 6 28).
  vm_compute. discriminate.
Defined.

(** X20.  In a multi-cycle forecast the confidence of cycle k + 1 is
    [max (c1 * 0.95 ^ k) 0.40] and never exceeds the confidence of the
    cycle before it. *)
Theorem X20_confidence_decay (now : Date) (userId : string) (numberOfCycles : Z)
    (db : Database) :
  ∃ first m db',
    predictNextPeriod now userId db = Ok (first, db') ∧
    predictMultipleCycles now userId numberOfCycles db = Ok (m, db') ∧
    ∀ k previous current,
      predictions m !! k = Some previous →
      predictions m !! S k = Some current →
      confidenceScore (cycle current) ==
        Qmax (confidenceScore (prediction first) * (95 # 100) ^ Z.of_nat (S k)) (40 # 100) ∧
      (confidenceScore (cycle current) <= confidenceScore (cycle previous))%Q.
Proof.
  destruct (predictMultipleCycles_spec now userId numberOfCycles db)
    as (first & m & db' & Hfirst & Hrun & _ & _ & H0 & Hstep).
  exists first, m, db'. split; [done|]. split; [done|].
  intros k previous current Hp Hc.
  rewrite (Hstep k previous current Hp Hc). cbn [cycle confidenceScore cycleAfter].
  split; [reflexivity|].
  destruct (predictNextPeriod_confidence _ _ _ _ _ Hfirst) as [Hlo Hhi].
  set (c1 := confidenceScore (prediction first)) in *.
  destruct (Math_pow_unit (95 # 100) k) as [P0 P1]; [discriminate..|].
  assert (c1 * Math_pow (95 # 100) (S k) <= c1 * Math_pow (95 # 100) k)%Q as Hdec.
  { rewrite Math_pow_succ. apply Qmult_le_l; [Lqa.lra|].
    apply Qle_trans with (Math_pow (95 # 100) k * 1)%Q; [|rewrite Qmult_1_r; apply Qle_refl].
    rewrite !(Qmult_comm (Math_pow (95 # 100) k)).
    apply Qmult_le_compat_r; [discriminate | done]. }
  destruct k as [|k].
  - rewrite H0 in Hp. injection Hp as <-. cbn [cycle]. fold c1.
    unfold Math_max. apply Q.max_lub; [|done].
    eapply Qle_trans; [exact Hdec|]. change (Math_pow (95 # 100) 0) with 1%Q.
    rewrite Qmult_1_r. apply Qle_refl.
  - destruct (lookup_lt_is_Some_2 (predictions m) k) as [before Hb];
      [apply lookup_lt_Some in Hp; lia|].
    rewrite (Hstep k before previous Hb Hp). cbn [cycle confidenceScore cycleAfter].
    unfold Math_max. by apply Q.max_le_compat_r.
Qed.

(** X12.  [daysBetween] does not depend on the order of its arguments, is
    never negative, and on two calendar days is the absolute difference of
    their day numbers. *)
Theorem X12_daysBetween (date1 date2 : Date) (day1 day2 : Z) :
  daysBetween date1 date2 = daysBetween date2 date1 ∧
  (0 ≤ daysBetween date1 date2)%Z ∧
  daysBetween (new_Date (Some day1)) (new_Date (Some day2)) = Z.abs (day2 - day1).
Proof.
  split_and!.
  - unfold daysBetween, Math_round, Math_abs. apply Qfloor_comp.
    apply Qplus_comp; [|reflexivity].
    rewrite <- (Qabs_opp (inject_Z (date1 - date2) / inject_Z oneDay)).
    apply Qabs_wd. replace (date2 - date1)%Z with (- (date1 - date2))%Z by lia.
    rewrite inject_Z_opp. field. discriminate.
  - unfold daysBetween, Math_round, Math_abs.
    change 0%Z with (Qfloor (inject_Z 0)). apply Qfloor_resp_le.
    pose proof (Qabs_nonneg (inject_Z (date2 - date1) / inject_Z oneDay)). 
    change (inject_Z 0) with 0%Q. Lqa.lra.
  - apply daysBetween_days.
Qed.

(** X11.  The cycle lengths of a forecast are exactly the differences of
    consecutive start dates that lie in [21, 45], in order: at most eleven,
    dropped and never clamped. *)
Theorem X11_history_filter (userId : string) (db : Database) :
  let periods := findCompletedPeriods userId db in
  calculateCycleLengths periods = Spec.intervalSamples periods ∧
  Forall Spec.valid (calculateCycleLengths periods) ∧
  (length (calculateCycleLengths periods) ≤ 11)%nat.
Proof.
  intros periods. split_and!.
  - apply calculateCycleLengths_samples, findCompletedPeriods_sorted.
  - apply calculateCycleLengths_valid.
  - pose proof (calculateCycleLengths_length periods).
    pose proof (findCompletedPeriods_length userId db). fold periods in H0. lia.
Qed.

Module FlowLemmas.
Import PredictionService PredictionFacts CacheFacts.

Lemma considered_slice (periods : list Period) :
  slice 0 6 (List.filter has_flow periods) = Flow.considered periods.
Proof.
  unfold slice, Flow.considered. rewrite drop_0. f_equal.
  induction periods as [|p periods IH]; [done|].
  cbn [List.filter]. rewrite filter_cons, IH. unfold has_flow.
  destruct (flow_intensity p); [by rewrite decide_True | by rewrite decide_False by (by intros [? ?])].
Qed.

Lemma occurrences_cons (f : FlowIntensity) (p : Period) (l : list Period) :
  Flow.occurrences f (p :: l) =
  ((if decide (flow_intensity p = Some f) then 1 else 0) + Flow.occurrences f l)%nat.
Proof. unfold Flow.occurrences. rewrite filter_cons. by destruct (decide _). Qed.

Lemma foldl_bump (f : FlowIntensity) (by_ : Q) (l : list Period) (c : IntensityCounts) :
  Flow.count_of f (foldl (bump by_) c l) ==
  Flow.count_of f c + by_ * inject_Z (Z.of_nat (Flow.occurrences f l)).
Proof.
  revert c. induction l as [|p l IH]; intros c; [cbn; ring|].
  cbn [foldl]. rewrite IH, occurrences_cons, Nat2Z.inj_add, inject_Z_plus.
  unfold bump. destruct (flow_intensity p) as [[]|], f; cbn;
    rewrite ?decide_True by done; rewrite ?decide_False by done; cbn; ring.
Qed.

Lemma counts_tally (f : FlowIntensity) (periods : list Period) :
  Flow.count_of f (Flow.counts periods) == Flow.tally f periods.
Proof.
  unfold Flow.counts, Flow.tally, slice. rewrite drop_0, !foldl_bump.
  change (3 - 0)%nat with 3%nat.
  destruct f; cbn [Flow.count_of count_light count_moderate count_heavy]; ring.
Qed.

Lemma occurrences_take (f : FlowIntensity) (n : nat) (l : list Period) :
  (Flow.occurrences f (take n l) ≤ Flow.occurrences f l)%nat.
Proof.
  revert n. induction l as [|p l IH]; intros [|n]; cbn [take]; try (unfold Flow.occurrences; simpl; lia).
  rewrite !occurrences_cons. specialize (IH n). lia.
Qed.

Lemma tally_positive (f : FlowIntensity) (periods : list Period) :
  (0 < Flow.tally f periods)%Q → (0 < Flow.occurrences f (Flow.considered periods))%nat.
Proof.
  unfold Flow.tally. intros H.
  destruct (Flow.occurrences f (Flow.considered periods)) eqn:E; [|lia].
  pose proof (occurrences_take f 3 (Flow.considered periods)) as Ht.
  rewrite E in Ht. assert (Flow.occurrences f (take 3 (Flow.considered periods)) = 0%nat) as E3 by lia.
  rewrite E3 in H. by vm_compute in H.
Qed.

Lemma considered_flow (periods : list Period) (p : Period) :
  p ∈ Flow.considered periods → is_Some (flow_intensity p).
Proof.
  unfold Flow.considered. intros H. apply elem_of_take in H as (i & H & _).
  apply list_elem_of_lookup_2, list_elem_of_filter in H. tauto.
Qed.

Lemma tally_some (periods : list Period) :
  Flow.considered periods ≠ [] → ∃ f, (1 <= Flow.tally f periods)%Q.
Proof.
  intros Hne. destruct (Flow.considered periods) as [|p l] eqn:E; [done|].
  destruct (considered_flow periods p) as [f Hf]; [rewrite E; by left|].
  exists f. unfold Flow.tally. rewrite E, occurrences_cons, decide_True by done.
  set (rest := Flow.occurrences f l). set (recent := Flow.occurrences f _).
  assert (0 <= inject_Z (Z.of_nat recent))%Q
    by (change 0%Q with (inject_Z 0); rewrite <- Zle_Qle; lia).
  assert (1 <= inject_Z (Z.of_nat (1 + rest)))%Q
    by (change 1%Q with (inject_Z 1); rewrite <- Zle_Qle; lia).
  Lqa.lra.
Qed.

End FlowLemmas.
Import FlowLemmas.

(** X24.  The flow forecast is [null] exactly when no record carries a flow
    intensity. *)
Theorem X24_flow_none (periods : list Period) :
  predictFlowIntensity periods = None ↔
  Forall (fun p => flow_intensity p = None) periods.
Proof.
  unfold predictFlowIntensity. rewrite considered_slice.
  assert (Flow.considered periods = [] ↔ Forall (fun p => flow_intensity p = None) periods)
    as Hiff.
  { unfold Flow.considered. split.
    - intros H. apply Forall_forall. intros p Hp.
      destruct (flow_intensity p) as [f|] eqn:E; [|done].
      assert (p ∈ filter (fun p => is_Some (flow_intensity p)) periods) as Hin
        by (apply list_elem_of_filter; split; [by rewrite E | done]).
      destruct (filter _ periods); [by apply elem_of_nil in Hin | done].
    - intros H. replace (filter _ periods) with (@nil Period); [done|].
      symmetry. induction H as [|p l Hp Hl IH]; [done|].
      rewrite filter_cons, decide_False by (rewrite Hp; by intros [? ?]). done. }
  destruct (decide (length (Flow.considered periods) = 0%nat)) as [E|E].
  - apply length_zero_iff_nil in E. by split; [intros _; apply Hiff | ].
  - split; [|intros H; apply Hiff in H; by rewrite H in E].
    by destruct (List.find _ _).
Qed.

(** X25.  A predicted flow intensity occurs among the six newest records
    that carry one, its tally is maximal, and strictly larger than the tally
    of every intensity that comes before it in the order light, moderate,
    heavy. *)
Theorem X25_flow_argmax (periods : list Period) (f : FlowIntensity) :
  predictFlowIntensity periods = Some f →
  (0 < Flow.occurrences f (Flow.considered periods))%nat ∧
  ∀ g,
    (Flow.tally g periods <= Flow.tally f periods)%Q ∧
    ((Flow.position g < Flow.position f)%nat →
     (Flow.tally g periods < Flow.tally f periods)%Q).
Proof.
  unfold predictFlowIntensity. rewrite considered_slice.
  destruct (decide _) as [E|E]; [done|]. fold (Flow.counts periods).
  pose proof (counts_tally light periods) as Tl.
  pose proof (counts_tally moderate periods) as Tm.
  pose proof (counts_tally heavy periods) as Th.
  cbn [Flow.count_of] in Tl, Tm, Th.
  set (c := Flow.counts periods) in *.
  set (maxCount := Math_max (Math_max (count_light c) (count_moderate c)) (count_heavy c)).
  assert (count_light c <= maxCount)%Q as Ll
    by (eapply Qle_trans; [apply Q.le_max_l | apply Q.le_max_l]).
  assert (count_moderate c <= maxCount)%Q as Lm
    by (eapply Qle_trans; [apply Q.le_max_r | apply Q.le_max_l]).
  assert (count_heavy c <= maxCount)%Q as Lh by apply Q.le_max_r.
  assert (maxCount == count_light c ∨ maxCount == count_moderate c ∨ maxCount == count_heavy c)
    as Hmax.
  { subst maxCount. unfold Math_max.
    destruct (Q.max_dec (Qmax (count_light c) (count_moderate c)) (count_heavy c)) as [H|H];
      [|by right; right].
    destruct (Q.max_dec (count_light c) (count_moderate c)) as [H'|H'];
      [left | right; left]; by rewrite H. }
  assert (1 <= maxCount)%Q as Hone.
  { destruct (tally_some periods) as [g Hg]; [intros Hnil; by rewrite Hnil in E|].
    destruct g; [rewrite <- Tl in Hg | rewrite <- Tm in Hg | rewrite <- Th in Hg]; Lqa.lra. }
  cbn [entries List.find snd fst].
  destruct (Qeq_bool (count_light c) maxCount) eqn:El.
  { apply Qeq_bool_iff in El. intros [= <-]. split.
    - apply tally_positive. rewrite <- Tl. Lqa.lra.
    - intros g. split; [destruct g; rewrite <- ?Tl, <- ?Tm, <- ?Th; Lqa.lra|].
      destruct g; cbn; lia. }
  apply Qeq_bool_neq in El.
  destruct (Qeq_bool (count_moderate c) maxCount) eqn:Em.
  { apply Qeq_bool_iff in Em. intros [= <-]. split.
    - apply tally_positive. rewrite <- Tm. Lqa.lra.
    - intros g. split; [destruct g; rewrite <- ?Tl, <- ?Tm, <- ?Th; Lqa.lra|].
      destruct g; cbn; try lia. intros _. rewrite <- Tl, <- Tm.
      apply Qle_lteq in Ll as [Ll|Ll]; [Lqa.lra | done]. }
  apply Qeq_bool_neq in Em.
  destruct (Qeq_bool (count_heavy c) maxCount) eqn:Eh.
  { apply Qeq_bool_iff in Eh. intros [= <-]. split.
    - apply tally_positive. rewrite <- Th. Lqa.lra.
    - intros g. split; [destruct g; rewrite <- ?Tl, <- ?Tm, <- ?Th; Lqa.lra|].
      destruct g; cbn; try lia; intros _.
      + rewrite <- Tl, <- Th. apply Qle_lteq in Ll as [Ll|Ll]; [Lqa.lra | done].
      + rewrite <- Tm, <- Th. apply Qle_lteq in Lm as [Lm|Lm]; [Lqa.lra | done]. }
  apply Qeq_bool_neq in Eh. exfalso.
  destruct Hmax as [H|[H|H]]; symmetry in H; done.
Qed.

Lemma X25_flow_argmax_witness :
  let periods :=
    map (fun f => {| user_id := "u1"; start_date := 0; end_date := None;
                     flow_intensity := Some f |})
      [heavy; light; light; heavy; moderate] in
  (0 < Flow.occurrences light (Flow.considered periods))%nat ∧
  ∀ g,
    (Flow.tally g periods <= Flow.tally light periods)%Q ∧
    ((Flow.position g < Flow.position light)%nat →
     (Flow.tally g periods < Flow.tally light periods)%Q).
Proof. intros periods. apply (X25_flow_argmax periods light). reflexivity. Defined.

Module IsolationLemmas.
Import PredictionService PredictionFacts CacheFacts.

Lemma findCompletedPeriods_create (userId : string) (row : Period) (d : Database) :
  user_id row ≠ userId ∨ end_date row = None →
  findCompletedPeriods userId (PeriodsRoute.Period_create row d) = findCompletedPeriods userId d.
Proof.
  intros H. unfold findCompletedPeriods, PeriodsRoute.Period_create. cbn [periods_table].
  rewrite List.filter_app. cbn [List.filter].
  replace (bool_decide (user_id row = userId) && has_end_date row) with false;
    [by rewrite app_nil_r|].
  symmetry. destruct H as [H|H].
  - by rewrite bool_decide_eq_false_2.
  - unfold has_end_date. rewrite H. apply andb_false_r.
Qed.

(** The forecast reads the database through the query and the user's
    settings row only. *)
Lemma predictNextPeriod_reads (now : Date) (userId : string) (d1 d2 : Database) :
  findCompletedPeriods userId d1 = findCompletedPeriods userId d2 →
  user_settings_table d1 !! userId = user_settings_table d2 !! userId →
  ∃ r d1' d2',
    predictNextPeriod now userId d1 = Ok (r, d1') ∧
    predictNextPeriod now userId d2 = Ok (r, d2').
Proof.
  intros Hq Hs. unfold predictNextPeriod. rewrite Hq.
  destruct (decide _) as [Hn|Hn].
  - eexists _, _, _. split; [reflexivity|]. unfold useDefaultPrediction. by rewrite Hs.
  - destruct (findCompletedPeriods userId d2) as [|p0 rest]; [simpl in Hn; lia|].
    cbn. by eexists _, _, _.
Qed.

End IsolationLemmas.
Import IsolationLemmas.

(** X8.  A user's forecast is the same after a record is created for
    another user, or created without an end date. *)
Theorem X8_forecast_ignores_other_rows (now created : Date) (userId author : string)
    (body : PeriodsRoute.CreatePeriod) (w : World) :
  author ≠ userId ∨ PeriodsRoute.body_end_date body = None →
  ∃ r d1 d2,
    predictNextPeriod now userId (db w) = Ok (r, d1) ∧
    predictNextPeriod now userId (db (PeriodsRoute.create created author body w).2)
      = Ok (r, d2).
Proof.
  intros H. apply predictNextPeriod_reads.
  - unfold PeriodsRoute.create. destruct (cacheHelpers.delete _ _ _) as [[[]|e] redis'];
      cbn [snd db]; symmetry; by apply findCompletedPeriods_create.
  - unfold PeriodsRoute.create. by destruct (cacheHelpers.delete _ _ _) as [[[]|e] redis'].
Qed.

Lemma X8_forecast_ignores_other_rows_witness :
  ∃ r d1 d2,
    predictNextPeriod 0%Z "u1" (db (Scenario.world Scenario.threeRecords)) = Ok (r, d1) ∧
    predictNextPeriod 0%Z "u1"
      (db (PeriodsRoute.create 0%Z "u2" Scenario.newPeriod
             (Scenario.world Scenario.threeRecords)).2)
      = Ok (r, d2).
Proof.
  apply (X8_forecast_ignores_other_rows 0%Z 0%Z "u1" "u2").
  left. discriminate.
Defined.

(** X9.  What a forecast writes: never a period, never another user's
    settings; nothing at all with fewer than three completed records;
    otherwise one saved prediction and the user's settings set to the rounded
    statistics. *)
Theorem X9_forecast_effects (now : Date) (userId : string) (d : Database) :
  ∃ r d',
    predictNextPeriod now userId d = Ok (r, d') ∧
    periods_table d' = periods_table d ∧
    (∀ other, other ≠ userId →
       user_settings_table d' !! other = user_settings_table d !! other) ∧
    ((length (findCompletedPeriods userId d) < 3)%nat → d' = d) ∧
    ((3 ≤ length (findCompletedPeriods userId d))%nat →
       predictions_table d' = predictions_table d ++ [(userId, prediction r)] ∧
       user_settings_table d' !! userId =
         Some {| avg_cycle_length := Math_round (avgCycleLength (cycleStats r));
                 avg_period_length := Math_round (avgPeriodLength (cycleStats r));
                 last_calculated_at := Some now |}).
Proof.
  unfold predictNextPeriod. destruct (decide _) as [Hn|Hn].
  - eexists _, _. split; [reflexivity|]. split_and!; try done. lia.
  - destruct (findCompletedPeriods userId d) as [|p0 rest] eqn:E; [simpl in Hn; lia|].
    cbn. eexists _, _. split; [reflexivity|]. cbn. split_and!; try done.
    + intros other Hne. by rewrite lookup_insert_ne.
    + intros _. by rewrite lookup_insert_eq.
Qed.

(** X23.  [GET /calendar] always answers, without touching the cache, with
    [max 1 (min months 6)] cycles ([months] defaulting to 3 when missing or
    0), hence from one to six, numbered 1, 2, ... in order. *)
Theorem X23_calendar (now : Date) (userId : string) (months : option Z) (w : World) :
  ∃ data w',
    CalendarRoute.calendar now userId months w = (Ok data, w') ∧
    redis w' = redis w ∧
    length (CalendarRoute.entries data) =
      Z.to_nat (Z.max 1 (Z.min (or_default months 3) 6)) ∧
    (1 ≤ length (CalendarRoute.entries data) ≤ 6)%nat ∧
    ∀ k e, CalendarRoute.entries data !! k = Some e → CalendarRoute.cycle_number e = S k.
Proof.
  unfold CalendarRoute.calendar.
  destruct (predictMultipleCycles_spec now userId (Z.min (or_default months 3) 6) (db w))
    as (first & m & d' & _ & -> & _ & Hlen & H0 & Hstep).
  eexists _, _. split; [reflexivity|]. cbn [redis CalendarRoute.entries].
  rewrite length_map. split_and!; [done | done | lia | lia |].
  intros k e He. rewrite list_lookup_fmap in He.
  destruct (predictions m !! k) as [c|] eqn:Ek; [|done]. injection He as <-. cbn.
  destruct k as [|k].
  - rewrite H0 in Ek. by injection Ek as <-.
  - destruct (lookup_lt_is_Some_2 (predictions m) k) as [previous Hp];
      [apply lookup_lt_Some in Ek; lia|].
    rewrite (Hstep k previous c Hp Ek). cbn. lia.
Qed.

(** X10.  With fewer than three completed records and no settings row, the
    forecast is 28 days after the newest record's start (after [now] without
    records), lasts 5 days, has confidence 0.40 + 0.10 per record, no flow,
    regularity "irregular" and standard deviation 0, and writes nothing. *)
Theorem X10_default_forecast (now : Date) (userId : string) (d : Database) :
  let periods := findCompletedPeriods userId d in
  (length periods < 3)%nat →
  user_settings_table d !! userId = None →
  ∃ r,
    predictNextPeriod now userId d = Ok (r, d) ∧
    let start :=
      match periods with
      | newest :: _ => (start_date newest * oneDay)%Z
      | [] => now
      end in
    predictedStartDate (prediction r) = (start + 28 * oneDay)%Z ∧
    predictedEndDate (prediction r) = (start + 32 * oneDay)%Z ∧
    confidenceScore (prediction r) == (40 # 100) + inject_Z (Z.of_nat (length periods)) * (1 # 10) ∧
    predictedFlowIntensity (prediction r) = None ∧
    regularity (cycleStats r) = irregular ∧
    standardDeviation (cycleStats r) = Math_sqrt 0 ∧
    avgCycleLength (cycleStats r) = 28%Q ∧
    avgPeriodLength (cycleStats r) = 5%Q.
Proof.
  intros periods Hn Hs. eexists. split; [by apply predictNextPeriod_default|].
  fold periods. unfold useDefaultPrediction. rewrite Hs.
  cbn [fmap option_fmap option_map or_default prediction cycleStats predictedStartDate
       predictedEndDate confidenceScore predictedFlowIntensity regularity standardDeviation
       avgCycleLength avgPeriodLength].
  rewrite !addDays_whole. split_and!; try done.
  destruct periods; cbn [new_Date]; lia.
Qed.

Lemma X10_default_forecast_witness :
  ∃ r,
    predictNextPeriod 777%Z "u1" Scenario.twoRecords = Ok (r, Scenario.twoRecords) ∧
    let start :=
      match findCompletedPeriods "u1" Scenario.twoRecords with
      | newest :: _ => (start_date newest * oneDay)%Z
      | [] => 777%Z
      end in
    predictedStartDate (prediction r) = (start + 28 * oneDay)%Z ∧
    predictedEndDate (prediction r) = (start + 32 * oneDay)%Z ∧
    confidenceScore (prediction r) ==
      (40 # 100)
      + inject_Z (Z.of_nat (length (findCompletedPeriods "u1" Scenario.twoRecords))) * (1 # 10) ∧
    predictedFlowIntensity (prediction r) = None ∧
    regularity (cycleStats r) = irregular ∧
    standardDeviation (cycleStats r) = Math_sqrt 0 ∧
    avgCycleLength (cycleStats r) = 28%Q ∧
    avgPeriodLength (cycleStats r) = 5%Q.
Proof.
  apply (X10_default_forecast 777%Z "u1" Scenario.twoRecords).
  - vm_compute. lia.
  - reflexivity.
Defined.

(** X26.  The phase shown by the progress bar never goes back as the days
    pass (menstrual, follicular, ovulation, luteal), and the displayed range
    holds the current day in the follicular and ovulation phases, ends after
    it in the menstrual phase and starts before it in the luteal phase. *)
Theorem X26_cycle_phase (avgPeriodLength cycleLength day day' : Z) :
  let info := CycleProgressBar.getCyclePhase avgPeriodLength day cycleLength in
  let info' := CycleProgressBar.getCyclePhase avgPeriodLength day' cycleLength in
  ((day ≤ day')%Z →
   (CycleProgressBar.rank (CycleProgressBar.phase info)
    ≤ CycleProgressBar.rank (CycleProgressBar.phase info'))%nat) ∧
  match CycleProgressBar.phase info with
  | CycleProgressBar.Menstrual => (day ≤ CycleProgressBar.range_to info)%Z
  | CycleProgressBar.Follicular | CycleProgressBar.Ovulation =>
      (CycleProgressBar.range_from info ≤ day ≤ CycleProgressBar.range_to info)%Z
  | CycleProgressBar.Luteal => (CycleProgressBar.range_from info ≤ day)%Z
  end.
Proof.
  cbv zeta. unfold CycleProgressBar.getCyclePhase.
  repeat case_bool_decide; cbn; split; intros; lia.
Qed.

Module SpacingLemmas.
Import PredictionService PredictionFacts CacheFacts.

Lemma Qfloor_between (lo hi : Z) (x : Q) :
  Range.between (inject_Z lo) (inject_Z hi) x → (lo ≤ Qfloor x ≤ hi)%Z.
Proof.
  intros [Hlo Hhi]. split.
  - rewrite <- (Qfloor_Z lo). by apply Qfloor_resp_le.
  - rewrite <- (Qfloor_Z hi). by apply Qfloor_resp_le.
Qed.

Lemma cacheKey_inj (u v : string) :
  PredictionsRoute.cacheKey u = PredictionsRoute.cacheKey v → u = v.
Proof. unfold PredictionsRoute.cacheKey. intros H. by simplify_eq/=. Qed.

End SpacingLemmas.
Import SpacingLemmas.

(** X21.  On the statistical path with at least one valid interval,
    consecutive cycles of a multi-cycle forecast start between 21 and 45 days
    apart. *)
Theorem X21_cycle_spacing (now : Date) (userId : string) (numberOfCycles : Z)
    (db : Database) :
  let periods := findCompletedPeriods userId db in
  (3 ≤ length periods)%nat →
  Spec.intervalSamples periods ≠ [] →
  ∃ m db',
    predictMultipleCycles now userId numberOfCycles db = Ok (m, db') ∧
    ∀ k previous current,
      predictions m !! k = Some previous →
      predictions m !! S k = Some current →
      (predictedStartDate (cycle previous) + 21 * oneDay
       ≤ predictedStartDate (cycle current)
       ≤ predictedStartDate (cycle previous) + 45 * oneDay)%Z.
Proof.
  intros periods Hn Hsamples.
  destruct (predictMultipleCycles_spec now userId numberOfCycles db)
    as (first & m & db' & Hfirst & Hrun & _ & _ & _ & Hstep).
  destruct (predictNextPeriod_statistical now userId db Hn)
    as (p0 & r & db'' & _ & Hr & Hstats & _).
  rewrite Hr in Hfirst. injection Hfirst as <- <-.
  exists m, db''. split; [done|]. intros k previous current Hp Hc.
  rewrite (Hstep k previous current Hp Hc). cbn [cycle predictedStartDate cycleAfter].
  rewrite Hstats. cbn [avgCycleLength calculateCycleStats]. fold periods.
  assert (21 ≤ Qfloor (average (numbers (calculateCycleLengths periods))) ≤ 45)%Z as Hstepdays.
  { apply Qfloor_between, average_between.
    - unfold numbers, periods.
      rewrite calculateCycleLengths_samples by apply findCompletedPeriods_sorted.
      fold periods. by destruct (Spec.intervalSamples periods).
    - apply numbers_between, calculateCycleLengths_valid. }
  unfold addDays, oneDay. lia.
Qed.

Lemma X21_cycle_spacing_witness :
  ∃ m db',
    predictMultipleCycles 0%Z "u1" 6 Scenario.fourRecords = Ok (m, db') ∧
    ∀ k previous current,
      predictions m !! k = Some previous →
      predictions m !! S k = Some current →
      (predictedStartDate (cycle previous) + 21 * oneDay
       ≤ predictedStartDate (cycle current)
       ≤ predictedStartDate (cycle previous) + 45 * oneDay)%Z.
Proof.
  apply (X21_cycle_spacing 0%Z "u1" 6 Scenario.fourRecords).
  - vm_compute. lia.
  - vm_compute. discriminate.
Defined.

(** X22.  With three records or more and no valid interval, every cycle of
    a multi-cycle forecast starts on the same day, the start of the newest
    record. *)
Theorem X22_cycles_collapse (now : Date) (userId : string) (numberOfCycles : Z)
    (db : Database) :
  let periods := findCompletedPeriods userId db in
  (3 ≤ length periods)%nat →
  Spec.intervalSamples periods = [] →
  ∃ newest m db',
    periods !! 0%nat = Some newest ∧
    predictMultipleCycles now userId numberOfCycles db = Ok (m, db') ∧
    Forall (fun c => predictedStartDate (cycle c) = (start_date newest * oneDay)%Z)
      (predictions m).
Proof.
  intros periods Hn Hsamples.
  destruct (predictMultipleCycles_spec now userId numberOfCycles db)
    as (first & m & db' & Hfirst & Hrun & _ & _ & H0 & Hstep).
  destruct (predictNextPeriod_statistical now userId db Hn)
    as (p0 & r & db'' & Hp0 & Hr & Hstats & Hstart & _).
  rewrite Hr in Hfirst. injection Hfirst as <- <-.
  assert (calculateCycleLengths periods = []) as Hempty.
  { unfold periods. by rewrite calculateCycleLengths_samples by apply findCompletedPeriods_sorted. }
  fold periods in Hstats, Hstart.
  exists p0, m, db''. split; [done|]. split; [done|].
  apply Forall_lookup. intros k. induction k as [|k IH]; intros c Hk.
  - rewrite H0 in Hk. injection Hk as <-. cbn [cycle].
    assert (calculateWeightedCycleLength periods = 0%Q) as Hw
      by (unfold calculateWeightedCycleLength; by rewrite Hempty).
    rewrite Hstart, Hw. change (Math_round 0) with 0%Z. rewrite addDays_whole.
    cbn [new_Date]. lia.
  - destruct (lookup_lt_is_Some_2 (predictions m) k) as [previous Hp];
      [apply lookup_lt_Some in Hk; lia|].
    rewrite (Hstep k previous c Hp Hk). cbn [cycle predictedStartDate cycleAfter].
    rewrite (IH previous Hp), Hstats. unfold calculateCycleStats. rewrite Hempty.
    cbn [avgCycleLength]. change (average (numbers [])) with (inject_Z 0).
    rewrite addDays_whole. lia.
Qed.

Lemma X22_cycles_collapse_witness :
  ∃ newest m db',
    findCompletedPeriods "u1" Scenario.closeRecords !! 0%nat = Some newest ∧
    predictMultipleCycles 0%Z "u1" 3 Scenario.closeRecords = Ok (m, db') ∧
    Forall (fun c => predictedStartDate (cycle c) = (start_date newest * oneDay)%Z)
      (predictions m).
Proof.
  apply (X22_cycles_collapse 0%Z "u1" 3 Scenario.closeRecords).
  - vm_compute. lia.
  - reflexivity.
Defined.

(** X6.  A read by one user never changes what is cached for another user. *)
Theorem X6_cache_isolation (now later : Date) (userId other : string) (d : Database)
    (keyspace : gmap string Redis.Entry) :
  other ≠ userId →
  ∃ response d' keyspace',
    PredictionsRoute.next_period now userId {| db := d; redis := Cache.healthy keyspace |}
      = (Ok response, {| db := d'; redis := Cache.healthy keyspace' |}) ∧
    Cache.cached later (PredictionsRoute.cacheKey other) keyspace' =
    Cache.cached later (PredictionsRoute.cacheKey other) keyspace.
Proof.
  intros Hne. rewrite next_period_healthy.
  destruct (Cache.cached now _ keyspace); [by eexists _, _, _|].
  destruct (predictNextPeriod_returns now userId d) as (p & d' & ->).
  eexists _, _, _. split; [reflexivity|]. unfold Cache.cached.
  rewrite lookup_insert_ne; [done|]. intros E. by apply cacheKey_inj in E.
Qed.

Lemma X6_cache_isolation_witness :
  ∃ response d' keyspace',
    PredictionsRoute.next_period 0%Z "u1"
        {| db := Scenario.threeRecords; redis := Cache.healthy ∅ |}
      = (Ok response, {| db := d'; redis := Cache.healthy keyspace' |}) ∧
    Cache.cached 1000%Z (PredictionsRoute.cacheKey "u2") keyspace' =
    Cache.cached 1000%Z (PredictionsRoute.cacheKey "u2") ∅.
Proof. apply (X6_cache_isolation 0%Z 1000%Z "u1" "u2"). discriminate. Defined.

(** X7.  [POST /] always succeeds, whatever the state of the cache: it
    appends exactly the validated record, owned by the caller, and touches no
    other table. *)
Theorem X7_create_period (now : Date) (userId : string)
    (body : PeriodsRoute.CreatePeriod) (w : World) :
  ∃ period w',
    PeriodsRoute.create now userId body w = (Ok period, w') ∧
    user_id period = userId ∧
    start_date period = PeriodsRoute.body_start_date body ∧
    end_date period = PeriodsRoute.body_end_date body ∧
    flow_intensity period = PeriodsRoute.body_flow_intensity body ∧
    periods_table (db w') = periods_table (db w) ++ [period] ∧
    user_settings_table (db w') = user_settings_table (db w) ∧
    predictions_table (db w') = predictions_table (db w).
Proof.
  unfold PeriodsRoute.create.
  pose proof (delete_succeeds now ("prediction:" +:+ userId) (redis w)) as Hd.
  destruct (cacheHelpers.delete _ _ _) as [[[]|e] redis']; [|done].
  by eexists _, _.
Qed.

